(** * Notes backend: the note entity and the in-memory repository

    A shallow embedding of [notes_backend/app/models.py] (the [Note]
    dataclass and [InMemoryNotesRepository]) and of the [PATCH] handler of
    [notes_backend/app/routes/notes.py], with the properties of the
    repository contract proved over it; then of the other views of
    [routes/notes.py], the schemas of [schemas.py] that guard them and the
    error handlers of [__init__.py], with properties of single requests
    and of sequences of requests.

    Modelling choices.
    - Python [int] is [Z]; [//] is [Z.div] (both round towards minus
      infinity); [len] is [Z.of_nat (length _)].
    - [self._data] is a Python [dict]: a map that iterates in insertion
      order.  Since [list] depends on that order, the dict is an association
      list in insertion order; assignment to a present key keeps its
      position, assignment to a new key appends.
    - [items[start:end]] follows Python's slice rules, negative and
      out-of-range indices included.
    - The two capabilities the code takes from outside, the clock
      ([datetime.utcnow]) and the identifier generator ([uuid.uuid4]), are
      an environment of two streams; the state counts how many values were
      drawn from each.
    - A note is a value.  The Python object returned by [create] or [update]
      is the one kept in the dict, so a later [update] is visible through
      it; the statements below are about what a call returns and what the
      store holds after it, and do not depend on that sharing. *)

From Stdlib Require Import ZArith Lia Bool.
From stdpp Require Import base tactics option list strings pretty.

Local Open Scope Z_scope.

(** ** Python's [datetime]: the fields, the order, [isoformat] *)

(** The ranges [datetime] enforces on its fields (the day is bounded by 31
    here, whatever the month). *)
Definition dt_valid (y mo d h mi s us : Z) : bool :=
  (1 <=? y) && (y <=? 9999) && (1 <=? mo) && (mo <=? 12) &&
  (1 <=? d) && (d <=? 31) && (0 <=? h) && (h <=? 23) &&
  (0 <=? mi) && (mi <=? 59) && (0 <=? s) && (s <=? 59) &&
  (0 <=? us) && (us <=? 999999).

Record datetime : Type := mk_datetime {
  year : Z; month : Z; day : Z;
  hour : Z; minute : Z; second : Z; microsecond : Z;
  dt_ok : dt_valid year month day hour minute second microsecond = true
}.

Definition dt_fields (d : datetime) : list Z :=
  [year d; month d; day d; hour d; minute d; second d; microsecond d].

(** Naive datetimes compare field by field, most significant first. *)
Fixpoint lex_leb (a b : list Z) : bool :=
  match a, b with
  | [], _ => true
  | _ :: _, [] => false
  | x :: a', y :: b' =>
      if x <? y then true
      else if y <? x then false
      else lex_leb a' b'
  end.

Definition dt_leb (a b : datetime) : bool := lex_leb (dt_fields a) (dt_fields b).
Definition dt_le (a b : datetime) : Prop := dt_leb a b = true.

Definition digit (n : Z) : Ascii.ascii :=
  Ascii.ascii_of_N (Z.to_N (48 + n mod 10)).

(** [zpad w n]: the last [w] decimal digits of [n], zero padded (the
    [%0wd] of a number that fits in [w] digits). *)
Fixpoint zpad (w : nat) (n : Z) : string :=
  match w with
  | O => ""
  | S w' => zpad w' (n / 10) +:+ String (digit n) ""
  end.

(** The fraction [isoformat] prints after the seconds: nothing for a
    whole second, the six digits of the microseconds otherwise. *)
Definition iso_fraction (us : Z) : string :=
  if us =? 0 then "" else "." +:+ zpad 6 us.

(** [datetime.isoformat()]: [YYYY-MM-DDTHH:MM:SS], then the fraction. *)
Definition isoformat (d : datetime) : string :=
  zpad 4 (year d) +:+ "-" +:+ zpad 2 (month d) +:+ "-" +:+ zpad 2 (day d) +:+ "T" +:+
  zpad 2 (hour d) +:+ ":" +:+ zpad 2 (minute d) +:+ ":" +:+ zpad 2 (second d) +:+
  iso_fraction (microsecond d).

(** ** The note entity *)

Record Note : Type := mk_Note {
  id : string;
  title : string;
  content : string;
  created_at : string;
  updated_at : string
}.

(** The environment: the [n]-th value read from the clock and the [n]-th
    identifier produced by [str(uuid.uuid4())]. *)
Record Env : Type := mk_Env {
  utcnow : nat -> datetime;
  uuid4 : nat -> string
}.

(** [Note.now_iso] applied to a clock reading. *)
Definition now_iso (t : datetime) : string := isoformat t +:+ "Z".

(** [Note.new], given the clock reading and the generated identifier. *)
Definition Note_new (now : string) (uuid : string) (title content : string) : Note :=
  {| id := uuid; title := title; content := content;
     created_at := now; updated_at := now |}.

(** Attribute assignment on a note: [note.title = t], [note.content = c],
    [note.updated_at = u]. *)
Definition set_title (t : string) (n : Note) : Note :=
  {| id := id n; title := t; content := content n;
     created_at := created_at n; updated_at := updated_at n |}.

Definition set_content (c : string) (n : Note) : Note :=
  {| id := id n; title := title n; content := c;
     created_at := created_at n; updated_at := updated_at n |}.

Definition set_updated_at (u : string) (n : Note) : Note :=
  {| id := id n; title := title n; content := content n;
     created_at := created_at n; updated_at := u |}.

(** ** Python containers *)

(** A [dict] from [str] to [Note], in insertion order. *)
Definition Dict : Type := list (string * Note).

(** [d.get(k)] *)
Fixpoint dict_get (k : string) (d : Dict) : option Note :=
  match d with
  | [] => None
  | (k', v) :: d' => if String.eqb k k' then Some v else dict_get k d'
  end.

(** [k in d] *)
Definition dict_mem (k : string) (d : Dict) : bool :=
  match dict_get k d with Some _ => true | None => false end.

(** [d[k] = v]: a present key keeps its position, a new key goes last. *)
Fixpoint dict_set (k : string) (v : Note) (d : Dict) : Dict :=
  match d with
  | [] => [(k, v)]
  | (k', v') :: d' =>
      if String.eqb k k' then (k', v) :: d' else (k', v') :: dict_set k v d'
  end.

(** [del d[k]] (for a key that is present). *)
Fixpoint dict_del (k : string) (d : Dict) : Dict :=
  match d with
  | [] => []
  | (k', v') :: d' =>
      if String.eqb k k' then dict_del k d' else (k', v') :: dict_del k d'
  end.

(** [list(d.values())] *)
Definition dict_values (d : Dict) : list Note := map snd d.

Definition dict_keys (d : Dict) : list string := map fst d.

(** The well-formedness of a dict: no key occurs twice. *)
Definition dict_wf (d : Dict) : Prop := NoDup (dict_keys d).

(** Python's adjustment of one slice bound for a sequence of length [n]
    and step 1. *)
Definition slice_index (n i : Z) : Z :=
  if i <? 0 then Z.max 0 (i + n) else Z.min i n.

(** [l[start:stop]] *)
Definition py_slice {A : Type} (l : list A) (start stop : Z) : list A :=
  let n := Z.of_nat (length l) in
  let lo := slice_index n start in
  let hi := slice_index n stop in
  take (Z.to_nat (hi - lo)) (drop (Z.to_nat lo) l).

(** ** The in-memory repository *)

(** The pagination metadata returned by [list]. *)
Record Meta : Type := mk_Meta {
  total : Z;
  total_pages : Z;
  first_page : Z;
  last_page : Z;
  page : Z;
  previous_page : option Z;
  next_page : option Z
}.

Record Listing : Type := mk_Listing {
  items : list Note;
  meta : Meta
}.

(** The repository object together with the number of values already
    drawn from the clock and from the identifier generator. *)
Record State : Type := mk_State {
  _data : Dict;
  clock_reads : nat;
  uuids_drawn : nat
}.

(** [InMemoryNotesRepository()] in a fresh process. *)
Definition init : State :=
  {| _data := []; clock_reads := 0; uuids_drawn := 0 |}.

Module InMemoryNotesRepository.

Definition get (note_id : string) (st : State) : option Note * State :=
  (dict_get note_id (_data st), st).

Definition create (env : Env) (title content : string) (st : State)
  : Note * State :=
  let now := now_iso (utcnow env (clock_reads st)) in
  let note := Note_new now (uuid4 env (uuids_drawn st)) title content in
  (note,
   {| _data := dict_set (id note) note (_data st);
      clock_reads := S (clock_reads st);
      uuids_drawn := S (uuids_drawn st) |}).

Definition update (env : Env) (note_id : string)
    (title content : option string) (st : State) : option Note * State :=
  match dict_get note_id (_data st) with
  | None => (None, st)
  | Some note =>
      let note := match title with
                  | Some t => set_title t note
                  | None => note
                  end in
      let note := match content with
                  | Some c => set_content c note
                  | None => note
                  end in
      let note := set_updated_at (now_iso (utcnow env (clock_reads st))) note in
      (Some note,
       {| _data := dict_set note_id note (_data st);
          clock_reads := S (clock_reads st);
          uuids_drawn := uuids_drawn st |})
  end.

Definition delete (note_id : string) (st : State) : bool * State :=
  if dict_mem note_id (_data st)
  then (true,
        {| _data := dict_del note_id (_data st);
           clock_reads := clock_reads st;
           uuids_drawn := uuids_drawn st |})
  else (false, st).

Definition list (page page_size : Z) (st : State) : Listing * State :=
  let items := dict_values (_data st) in
  let total := Z.of_nat (length items) in
  let start := (page - 1) * page_size in
  let end_ := start + page_size in
  let page_items := py_slice items start end_ in
  let total_pages :=
    if 0 <? page_size then (total + page_size - 1) / page_size else 1 in
  let meta :=
    {| total := total;
       total_pages := total_pages;
       first_page := if 0 <? total then 1 else 0;
       last_page := if 0 <? total then total_pages else 0;
       page := page;
       previous_page := if 1 <? page then Some (page - 1) else None;
       next_page := if page <? total_pages then Some (page + 1) else None |} in
  ({| items := page_items; meta := meta |}, st).

End InMemoryNotesRepository.

(** ** The [PATCH /api/notes/<note_id>] handler of the HTTP layer *)

Inductive HTTPStatus : Type := OK | BAD_REQUEST | NOT_FOUND.

(** The payload loaded through [NoteUpdateSchema]: a dict that holds each
    of the keys ["title"] and ["content"] or not; [payload.get(key)] is
    the field, and the dict is falsy exactly when it has no key. *)
Record Payload : Type := mk_Payload {
  payload_title : option string;
  payload_content : option string
}.

Definition payload_is_empty (p : Payload) : bool :=
  match payload_title p, payload_content p with
  | None, None => true
  | _, _ => false
  end.

Module NoteItem.

(** The envelope's [data] (the note, when there is one) and the status. *)
Definition patch (env : Env) (payload : Payload) (note_id : string) (st : State)
  : (option Note * HTTPStatus) * State :=
  if payload_is_empty payload then ((None, BAD_REQUEST), st)
  else
    match InMemoryNotesRepository.update env note_id
            (payload_title payload) (payload_content payload) st with
    | (None, st') => ((None, NOT_FOUND), st')
    | (Some updated, st') => ((Some updated, OK), st')
    end.

End NoteItem.

(** ** Sequences of calls on one repository *)

Inductive Call : Type :=
| CallList (page page_size : Z)
| CallGet (note_id : string)
| CallCreate (title content : string)
| CallUpdate (note_id : string) (title content : option string)
| CallDelete (note_id : string).

Inductive Return : Type :=
| RetList (r : Listing)
| RetGet (r : option Note)
| RetCreate (r : Note)
| RetUpdate (r : option Note)
| RetDelete (r : bool).

(** The result of a call, tagged by the method that returned it. *)
Definition tagged {A : Type} (tag : A -> Return) (r : A * State) : Return * State :=
  (tag (fst r), snd r).

Definition call (env : Env) (c : Call) (st : State) : Return * State :=
  match c with
  | CallList page page_size =>
      tagged RetList (InMemoryNotesRepository.list page page_size st)
  | CallGet note_id =>
      tagged RetGet (InMemoryNotesRepository.get note_id st)
  | CallCreate title content =>
      tagged RetCreate (InMemoryNotesRepository.create env title content st)
  | CallUpdate note_id title content =>
      tagged RetUpdate (InMemoryNotesRepository.update env note_id title content st)
  | CallDelete note_id =>
      tagged RetDelete (InMemoryNotesRepository.delete note_id st)
  end.

(** The calls of [cs] in order, from state [st]: what each returned and
    the final state. *)
Fixpoint run (env : Env) (cs : list Call) (st : State) : list Return * State :=
  match cs with
  | [] => ([], st)
  | c :: cs' =>
      let '(r, st1) := call env c st in
      let '(rs, st2) := run env cs' st1 in
      (r :: rs, st2)
  end.

(** The identifiers of the notes returned by the [create] calls. *)
Fixpoint created_ids (rs : list Return) : list string :=
  match rs with
  | [] => []
  | RetCreate n :: rs' => id n :: created_ids rs'
  | _ :: rs' => created_ids rs'
  end.

(** ** Notions used by the statements *)

(** [q] is the ceiling of [a / b], for [b > 0]: the least integer with
    [a <= q * b]. *)
Definition is_ceil_div (a b q : Z) : Prop :=
  a <= q * b /\ forall k : Z, a <= k * b -> q <= k.

(** The order of two stored timestamps: each is the textual form of a
    clock reading, and the readings are in order. *)
Definition stamp_le (a b : string) : Prop :=
  exists ta tb : datetime, a = now_iso ta /\ b = now_iso tb /\ dt_le ta tb.

(** The clock never goes back. *)
Definition monotone_clock (env : Env) : Prop :=
  forall i j : nat, (i <= j)%nat -> dt_le (utcnow env i) (utcnow env j).

(** The generator never produces an identifier twice. *)
Definition fresh_uuids (env : Env) : Prop :=
  forall i j : nat, uuid4 env i = uuid4 env j -> i = j.

(** ** A sample environment and the scenarios of the contract *)

(** A clock that advances by a quarter of a millisecond at each reading,
    within one second. *)
Definition sample_us (n : nat) : Z := Z.min 999999 (250 * Z.of_nat n).

Lemma sample_us_ok (n : nat) : dt_valid 2024 5 17 9 30 0 (sample_us n) = true.
Proof.
  unfold dt_valid, sample_us. cbn [andb Z.leb Z.compare Pos.compare Pos.compare_cont].
  apply andb_true_intro. split; apply Z.leb_le; lia.
Qed.

Definition sample_clock (n : nat) : datetime :=
  mk_datetime 2024 5 17 9 30 0 (sample_us n) (sample_us_ok n).

Definition sample_uuid (n : nat) : string := "uuid-" +:+ pretty n.

Definition sample_env : Env := {| utcnow := sample_clock; uuid4 := sample_uuid |}.

Module Repo := InMemoryNotesRepository.

(** Three notes created in a fresh repository, and the state they leave. *)
Definition three_calls : list Call :=
  [CallCreate "A" "a"; CallCreate "B" "b"; CallCreate "C" "c"].

Definition three_notes : State := snd (run sample_env three_calls init).

Definition note_B : Note :=
  {| id := sample_uuid 1; title := "B"; content := "b";
     created_at := "2024-05-17T09:30:00.000250Z";
     updated_at := "2024-05-17T09:30:00.000250Z" |}.

(** The note [update] leaves for a note [old] that it finds: the fields
    given replace the old ones, and [updated_at] is the new reading. *)
Definition updated_note (now : string) (t c : option string) (old : Note) : Note :=
  {| id := id old;
     title := default (title old) t;
     content := default (content old) c;
     created_at := created_at old;
     updated_at := now |}.

(** ** The invariant of the store *)

(** What holds of a note stored under key [k]: it carries [k] as its
    identifier, [k] was produced by the generator, and its two timestamps
    are the forms of two clock readings already taken, the one of
    [created_at] not after the one of [updated_at]. *)
Record note_inv (env : Env) (st : State) (k : string) (n : Note) : Prop := {
  inv_id : id n = k;
  inv_issued : exists u : nat, (u < uuids_drawn st)%nat /\ k = uuid4 env u;
  inv_stamps : exists i j : nat,
      (i <= j)%nat /\ (j < clock_reads st)%nat /\
      created_at n = now_iso (utcnow env i) /\
      updated_at n = now_iso (utcnow env j)
}.

Record state_inv (env : Env) (st : State) : Prop := {
  inv_wf : dict_wf (_data st);
  inv_notes : forall k n, (k, n) ∈ _data st -> note_inv env st k n
}.

(** ** The schemas of [schemas.py] *)

(** [validate.Range(min=..., max=...)]: both bounds are included. *)
Definition Range (min max v : Z) : bool := (min <=? v) && (v <=? max).

(** [validate.Length(min=..., max=...)], [max] being optional.  The length
    of a string is its number of characters; a character is an [ascii]. *)
Definition Length (min : nat) (max : option nat) (s : string) : bool :=
  (min <=? String.length s)%nat &&
  match max with
  | Some m => (String.length s <=? m)%nat
  | None => true
  end.

(** What [PaginationQuerySchema] loads: a dict with the keys ["page"] and
    ["page_size"]. *)
Record QueryArgs : Type := mk_QueryArgs {
  args_page : option Z;
  args_page_size : option Z
}.

(** What [NoteCreateSchema] loads: both fields are required. *)
Record CreatePayload : Type := mk_CreatePayload {
  create_title : string;
  create_content : string
}.

(** Loading through a schema: the input holds, for each field, the value
    sent (already of the field's type) or nothing.  A field with a
    [load_default] takes it when nothing was sent; a validator applies to a
    value that was sent; a required field must be sent.  [None] is the
    validation error. *)
Module PaginationQuerySchema.

Definition load (page page_size : option Z) : option QueryArgs :=
  if from_option (Range 1 100) true page_size
  then Some {| args_page := Some (default 1 page);
               args_page_size := Some (default 20 page_size) |}
  else None.

End PaginationQuerySchema.

Module NoteCreateSchema.

Definition load (title content : option string) : option CreatePayload :=
  match title, content with
  | Some t, Some c =>
      if Length 1 (Some 200%nat) t && Length 1 None c
      then Some {| create_title := t; create_content := c |}
      else None
  | _, _ => None
  end.

End NoteCreateSchema.

Module NoteUpdateSchema.

Definition load (title content : option string) : option Payload :=
  if from_option (Length 1 (Some 200%nat)) true title
     && from_option (Length 1 None) true content
  then Some {| payload_title := title; payload_content := content |}
  else None.

End NoteUpdateSchema.

(** [NoteSchema().dump(note)]: the five fields, each a string, under their
    names. *)
Module NoteSchema.

Definition dump (n : Note) : list (string * string) :=
  [("id", id n); ("title", title n); ("content", content n);
   ("created_at", created_at n); ("updated_at", updated_at n)].

End NoteSchema.

(** ** The views of [routes/notes.py] and the handlers of [__init__.py] *)

(** The [data] of an envelope: [None], a dumped note, or a page of dumped
    notes with its metadata. *)
Inductive Data : Type :=
| DataNone
| DataNote (d : list (string * string))
| DataPage (page_items : list (list (string * string))) (page_meta : Meta).

(** The envelope a view returns; [message] is [None] when the dict has
    no ["message"] key. *)
Record Envelope : Type := mk_Envelope {
  status : string;
  data : Data;
  message : option string
}.

(** What a view returns beside the status code: an envelope, or the empty
    string. *)
Inductive Body : Type :=
| Json (e : Envelope)
| EmptyBody.

(** The values of the [HTTPStatus] members the views use. *)
Definition HTTP_OK : Z := 200.
Definition HTTP_CREATED : Z := 201.
Definition HTTP_NO_CONTENT : Z := 204.
Definition HTTP_BAD_REQUEST : Z := 400.
Definition HTTP_NOT_FOUND : Z := 404.

Definition HTTPStatus_value (s : HTTPStatus) : Z :=
  match s with
  | OK => HTTP_OK
  | BAD_REQUEST => HTTP_BAD_REQUEST
  | NOT_FOUND => HTTP_NOT_FOUND
  end.

Definition error_envelope (msg : string) : Body :=
  Json {| status := "error"; data := DataNone; message := Some msg |}.

Module Routes.

Module NotesCollection.

Definition get (args : QueryArgs) (st : State) : (Body * Z) * State :=
  let page := default 1 (args_page args) in
  let page_size := default 20 (args_page_size args) in
  let result := Repo.list page page_size st in
  let items := map NoteSchema.dump (items (fst result)) in
  ((Json {| status := "success";
            data := DataPage items (meta (fst result));
            message := Some "Notes fetched" |},
    HTTP_OK),
   snd result).

Definition post (env : Env) (payload : CreatePayload) (st : State)
  : (Body * Z) * State :=
  let created :=
    Repo.create env (create_title payload) (create_content payload) st in
  ((Json {| status := "success";
            data := DataNote (NoteSchema.dump (fst created));
            message := Some "Note created" |},
    HTTP_CREATED),
   snd created).

End NotesCollection.

Module NoteItem.

Definition get (note_id : string) (st : State) : (Body * Z) * State :=
  match Repo.get note_id st with
  | (None, st') => ((error_envelope "Note not found", HTTP_NOT_FOUND), st')
  | (Some note, st') =>
      ((Json {| status := "success";
                data := DataNote (NoteSchema.dump note);
                message := None |},
        HTTP_OK),
       st')
  end.

Definition patch (env : Env) (payload : Payload) (note_id : string) (st : State)
  : (Body * Z) * State :=
  if payload_is_empty payload
  then ((error_envelope "No fields provided for update", HTTP_BAD_REQUEST), st)
  else
    match Repo.update env note_id
            (payload_title payload) (payload_content payload) st with
    | (None, st') => ((error_envelope "Note not found", HTTP_NOT_FOUND), st')
    | (Some updated, st') =>
        ((Json {| status := "success";
                  data := DataNote (NoteSchema.dump updated);
                  message := Some "Note updated" |},
          HTTP_OK),
         st')
    end.

Definition delete (note_id : string) (st : State) : (Body * Z) * State :=
  match Repo.delete note_id st with
  | (false, st') => ((error_envelope "Note not found", HTTP_NOT_FOUND), st')
  | (true, st') => ((EmptyBody, HTTP_NO_CONTENT), st')
  end.

End NoteItem.

End Routes.

(** The error handlers of the application. *)
Module App.

Definition handle_404 : Body * Z := (error_envelope "Resource not found", 404).
Definition handle_400 : Body * Z := (error_envelope "Bad request", 400).
Definition handle_500 : Body * Z := (error_envelope "Internal server error", 500).

End App.

(** ** Requests *)

(** A request to one of the five routes, with what it sends for each field
    of the route's schema. *)
Inductive Request : Type :=
| ListNotes (page page_size : option Z)
| CreateNote (title content : option string)
| GetNote (note_id : string)
| UpdateNote (note_id : string) (title content : option string)
| DeleteNote (note_id : string).

(** A request is answered by its view, unless the schema of the route
    refuses its arguments, in which case the view is not called. *)
Inductive Outcome : Type :=
| Rejected
| Responded (body : Body) (code : Z).

Definition respond (r : (Body * Z) * State) : Outcome * State :=
  (Responded (fst (fst r)) (snd (fst r)), snd r).

Definition dispatch (env : Env) (req : Request) (st : State) : Outcome * State :=
  match req with
  | ListNotes page page_size =>
      match PaginationQuerySchema.load page page_size with
      | Some args => respond (Routes.NotesCollection.get args st)
      | None => (Rejected, st)
      end
  | CreateNote title content =>
      match NoteCreateSchema.load title content with
      | Some payload => respond (Routes.NotesCollection.post env payload st)
      | None => (Rejected, st)
      end
  | GetNote note_id => respond (Routes.NoteItem.get note_id st)
  | UpdateNote note_id title content =>
      match NoteUpdateSchema.load title content with
      | Some payload => respond (Routes.NoteItem.patch env payload note_id st)
      | None => (Rejected, st)
      end
  | DeleteNote note_id => respond (Routes.NoteItem.delete note_id st)
  end.



(** The shapes of the answers. *)
Definition success_shape (body : Body) (code : Z) : Prop :=
  exists e, body = Json e /\ status e = "success" /\ data e <> DataNone /\
            (code = 200 \/ code = 201).

Definition error_shape (body : Body) (code : Z) : Prop :=
  exists msg, body = error_envelope msg /\ 400 <= code.



(** A generator that always answers the same identifier. *)
Definition stuck_env : Env := {| utcnow := sample_clock; uuid4 := fun _ => "same" |}.

(** The number of [create] calls and of [delete] calls that returned true. *)
Fixpoint count_creates (rs : list Return) : nat :=
  match rs with
  | [] => 0
  | RetCreate _ :: rs' => S (count_creates rs')
  | _ :: rs' => count_creates rs'
  end.

Fixpoint count_deletes (rs : list Return) : nat :=
  match rs with
  | [] => 0
  | RetDelete true :: rs' => S (count_deletes rs')
  | _ :: rs' => count_deletes rs'
  end.

(** The notes stored under [k] from some state on: [k] was generated, and
    any note found under it has the identifier and the creation time of
    [old]. *)
Definition same_note (env : Env) (k : string) (old : Note) (st : State) : Prop :=
  (exists u : nat, (u < uuids_drawn st)%nat /\ k = uuid4 env u) /\
  forall n, dict_get k (_data st) = Some n ->
    id n = id old /\ created_at n = created_at old.

(** * Properties *)

(** ** Slices and pages *)

Section Slices.
Context {A : Type}.
Implicit Types l : list A.

(** For bounds [0 <= start <= stop] the slice is "drop, then take". *)
Lemma py_slice_nonneg l (start len : Z) :
  0 <= start -> 0 <= len ->
  py_slice l start (start + len) = take (Z.to_nat len) (drop (Z.to_nat start) l).
Proof.
  intros Hs Hl. unfold py_slice, slice_index.
  destruct (Z.ltb_spec start 0) as [?|_]; [lia|].
  destruct (Z.ltb_spec (start + len) 0) as [?|_]; [lia|].
  set (n := Z.of_nat (length l)).
  destruct (Z.le_gt_cases n start) as [Hge|Hlt].
  - rewrite (Z.min_r start n) by lia.
    rewrite !drop_ge by lia. by rewrite !take_nil.
  - rewrite (Z.min_l start n) by lia.
    destruct (Z.le_gt_cases (start + len) n) as [Hin|Hout].
    + rewrite Z.min_l by lia. f_equal. lia.
    + rewrite Z.min_r by lia.
      rewrite !take_ge; [done | |]; rewrite length_drop; lia.
Qed.

(** A slice that starts at or after the end is empty. *)
Lemma py_slice_past_end l (start stop : Z) :
  Z.of_nat (length l) <= start -> py_slice l start stop = [].
Proof.
  intros H. unfold py_slice.
  assert (Hlo : slice_index (Z.of_nat (length l)) start = Z.of_nat (length l)).
  { unfold slice_index. destruct (Z.ltb_spec start 0); lia. }
  rewrite Hlo, Nat2Z.id, drop_all. apply take_nil.
Qed.

(** Chunks of [n > 0] elements, enough of them to cover [l], give [l] back. *)
Lemma chunks_concat (n : nat) : forall (k : nat) l,
  (0 < n)%nat -> (length l <= k * n)%nat ->
  concat (map (fun i : nat => take n (drop (i * n) l)) (seq 0 k)) = l.
Proof.
  induction k as [|k IH]; intros l Hn Hlen.
  - simpl in *. destruct l; [done | simpl in Hlen; lia].
  - cbn [seq map concat]. rewrite <- seq_shift, map_map.
    change (0 * n)%nat with 0%nat. rewrite drop_0.
    rewrite (map_ext _ (fun i : nat => take n (drop (i * n) (drop n l)))).
    + rewrite IH; [apply take_drop | done |].
      rewrite length_drop. simpl in Hlen. lia.
    + intros i. rewrite drop_drop. do 2 f_equal.
  Qed.

End Slices.

Lemma ceil_formula (a b : Z) :
  0 <= a -> 0 < b -> is_ceil_div a b ((a + b - 1) / b).
Proof.
  intros Ha Hb. split.
  - pose proof (Z.mul_div_le (a + b - 1) b Hb).
    pose proof (Z.mod_pos_bound (a + b - 1) b Hb).
    pose proof (Z.div_mod (a + b - 1) b ltac:(lia)). nia.
  - intros k Hk. apply Z.lt_succ_r, Z.div_lt_upper_bound; [done|]. nia.
Qed.

(** ** The textual form of a clock reading *)

Section Timestamps.

Lemma string_length_app (a b : string) :
  String.length (a +:+ b) = (String.length a + String.length b)%nat.
Proof. induction a as [|x a IH]; simpl; [done | by rewrite IH]. Qed.

(** Two concatenations with heads of one length agree part by part. *)
Lemma string_app_inj_length (a b c d : string) :
  String.length a = String.length c ->
  a +:+ b = c +:+ d -> a = c /\ b = d.
Proof.
  revert c. induction a as [|x a IH]; intros [|y c] Hlen Heq;
    simpl in *; try done.
  injection Heq as -> Heq. destruct (IH c) as [-> ->]; [lia | done | done].
Qed.

Lemma zpad_length (w : nat) (n : Z) : String.length (zpad w n) = w.
Proof.
  revert n. induction w as [|w IH]; intros n; simpl; [done|].
  rewrite string_length_app, IH. simpl. lia.
Qed.

Lemma digit_inj (n m : Z) : digit n = digit m -> n mod 10 = m mod 10.
Proof.
  unfold digit. intros Heq.
  pose proof (Z.mod_pos_bound n 10 ltac:(lia)).
  pose proof (Z.mod_pos_bound m 10 ltac:(lia)).
  apply (f_equal Ascii.N_of_ascii) in Heq.
  rewrite !Ascii.N_ascii_embedding in Heq by lia. lia.
Qed.

Lemma zpad_inj (w : nat) : forall n m : Z,
  0 <= n < 10 ^ Z.of_nat w -> 0 <= m < 10 ^ Z.of_nat w ->
  zpad w n = zpad w m -> n = m.
Proof.
  induction w as [|w IH]; intros n m Hn Hm Heq.
  - simpl in *. lia.
  - rewrite Nat2Z.inj_succ, Z.pow_succ_r in Hn, Hm by lia.
    simpl in Heq.
    apply string_app_inj_length in Heq as [Hhi Hlo];
      [|by rewrite !zpad_length].
    injection Hlo as Hlo. apply digit_inj in Hlo.
    apply IH in Hhi.
    + pose proof (Z.div_mod n 10 ltac:(lia)).
      pose proof (Z.div_mod m 10 ltac:(lia)). lia.
    + split; [apply Z.div_pos; lia | apply Z.div_lt_upper_bound; lia].
    + split; [apply Z.div_pos; lia | apply Z.div_lt_upper_bound; lia].
Qed.

Lemma iso_fraction_inj (a b : Z) :
  0 <= a <= 999999 -> 0 <= b <= 999999 ->
  iso_fraction a = iso_fraction b -> a = b.
Proof.
  unfold iso_fraction. intros Ha Hb.
  destruct (Z.eqb_spec a 0) as [->|Ha0], (Z.eqb_spec b 0) as [->|Hb0];
    try done.
  intros Heq. apply (inj (String.app ".")) in Heq.
  apply (zpad_inj 6); [change (10 ^ Z.of_nat 6) with 1000000; lia ..| done].
Qed.

Lemma dt_valid_bounds (y mo d h mi s us : Z) :
  dt_valid y mo d h mi s us = true ->
  (1 <= y <= 9999 /\ 1 <= mo <= 12 /\ 1 <= d <= 31) /\
  (0 <= h <= 23 /\ 0 <= mi <= 59 /\ 0 <= s <= 59) /\
  0 <= us <= 999999.
Proof.
  unfold dt_valid. rewrite !andb_true_iff, !Z.leb_le. lia.
Qed.

(** A reading can be read back from its form: [isoformat] is injective. *)
Lemma isoformat_inj (a b : datetime) : isoformat a = isoformat b -> a = b.
Proof.
  destruct a as [y mo d h mi s us Hok], b as [y' mo' d' h' mi' s' us' Hok'].
  unfold isoformat.
  cbn [year month day hour minute second microsecond].
  pose proof (dt_valid_bounds _ _ _ _ _ _ _ Hok) as (B1 & B2 & B3).
  pose proof (dt_valid_bounds _ _ _ _ _ _ _ Hok') as (B1' & B2' & B3').
  intros Heq.
  repeat match type of Heq with
  | zpad ?w _ +:+ _ = zpad ?w _ +:+ _ =>
      let H := fresh "Hf" in
      apply string_app_inj_length in Heq as [H Heq];
        [apply (zpad_inj w) in H;
           [|match goal with |- context [10 ^ ?e] =>
               let v := eval vm_compute in (10 ^ e) in change (10 ^ e) with v
             end; lia ..]
        | by rewrite !zpad_length]
  | ?sep +:+ _ = ?sep +:+ _ => apply (inj (String.app sep)) in Heq
  end.
  apply iso_fraction_inj in Heq; [|lia|lia].
  subst. f_equal. apply proof_irrel.
Qed.

Lemma now_iso_inj (a b : datetime) : now_iso a = now_iso b -> a = b.
Proof.
  unfold now_iso. intros Heq. apply isoformat_inj.
  assert (Hlen : String.length (isoformat a) = String.length (isoformat b)).
  { apply (f_equal String.length) in Heq.
    rewrite !string_length_app in Heq. lia. }
  by destruct (string_app_inj_length _ _ _ _ Hlen Heq).
Qed.

(** The order of two timestamps is the order of the readings they are
    the forms of. *)
Lemma stamp_le_now_iso (a b : datetime) :
  stamp_le (now_iso a) (now_iso b) <-> dt_le a b.
Proof.
  split.
  - intros (ta & tb & Ha & Hb & Hle).
    apply now_iso_inj in Ha, Hb. by subst.
  - intros Hle. by exists a, b.
Qed.

(** The order above is the order in time.  It is not the order of the two
    texts compared character by character: a whole second is printed
    without a fraction, and [Z] sorts after the [.] that starts one. *)
Example text_order_differs :
  let t0 := mk_datetime 2024 5 17 9 30 0 0 eq_refl in
  let t1 := mk_datetime 2024 5 17 9 30 0 250 eq_refl in
  dt_le t0 t1 /\ now_iso t0 <> now_iso t1 /\
  String.leb (now_iso t1) (now_iso t0) = true.
Proof. repeat split. intros H. by apply now_iso_inj in H. Qed.

End Timestamps.

(** ** Listing *)

(** The items of a page, for arguments in the range the contract names. *)
Lemma list_items_take_drop (st : State) (p ps : Z) :
  1 <= p -> 1 <= ps ->
  items (fst (Repo.list p ps st))
  = take (Z.to_nat ps) (drop (Z.to_nat ((p - 1) * ps)) (dict_values (_data st))).
Proof.
  intros Hp Hps. cbn [Repo.list fst items]. apply py_slice_nonneg; nia.
Qed.

(** The number of pages does not depend on the page asked for. *)
Lemma list_total_pages (st : State) (p ps : Z) :
  0 < ps ->
  is_ceil_div (Z.of_nat (length (dict_values (_data st)))) ps
    (total_pages (meta (fst (Repo.list p ps st)))).
Proof.
  intros Hps. cbn [Repo.list fst meta total_pages].
  destruct (Z.ltb_spec 0 ps); [|lia]. apply ceil_formula; lia.
Qed.

(** C1: the pagination metadata of [list].  [total] is the number of notes;
    for [page_size >= 1], [total_pages] is the ceiling of
    [total / page_size], so 0 for an empty store; for [page_size <= 0] it
    is 1; [first_page] and [last_page] are 1 and [total_pages] when there
    are notes and 0 otherwise; [page] is the requested page whatever it is;
    [previous_page] is [page - 1] when [page > 1] and [next_page] is
    [page + 1] when [page < total_pages], and each is null otherwise. *)
Theorem list_meta_fields (st : State) (p ps : Z) :
  let m := meta (fst (Repo.list p ps st)) in
  let n := Z.of_nat (length (dict_values (_data st))) in
  total m = n /\
  (1 <= ps -> is_ceil_div n ps (total_pages m) /\ (n = 0 -> total_pages m = 0)) /\
  (ps <= 0 -> total_pages m = 1) /\
  (0 < n -> first_page m = 1 /\ last_page m = total_pages m) /\
  (n = 0 -> first_page m = 0 /\ last_page m = 0) /\
  page m = p /\
  (1 < p -> previous_page m = Some (p - 1)) /\
  (p <= 1 -> previous_page m = None) /\
  (p < total_pages m -> next_page m = Some (p + 1)) /\
  (total_pages m <= p -> next_page m = None).
Proof.
  intros m n. subst m. cbn [Repo.list fst meta total total_pages first_page
    last_page page previous_page next_page]. fold n.
  repeat split.
  - apply (list_total_pages st p ps). lia.
  - apply (list_total_pages st p ps). lia.
  - intros ->. destruct (Z.ltb_spec 0 ps); [|lia].
    apply Z.div_small. lia.
  - intros Hps. destruct (Z.ltb_spec 0 ps); [lia | done].
  - destruct (Z.ltb_spec 0 n); [done | lia].
  - destruct (Z.ltb_spec 0 n); [done | lia].
  - destruct (Z.ltb_spec 0 n); [lia | done].
  - destruct (Z.ltb_spec 0 n); [lia | done].
  - intros Hp. destruct (Z.ltb_spec 1 p); [done | lia].
  - intros Hp. destruct (Z.ltb_spec 1 p); [lia | done].
  - intros Hp.
    destruct (Z.ltb_spec p (if 0 <? ps then (n + ps - 1) / ps else 1)); [done | lia].
  - intros Hp.
    destruct (Z.ltb_spec p (if 0 <? ps then (n + ps - 1) / ps else 1)); [lia | done].
Qed.

(** C2: for [page >= 1] and [page_size >= 1] the items are the notes in
    insertion order from offset [(page - 1) * page_size], at most
    [page_size] of them, and none when the offset is at or past the end. *)
Theorem list_items_slice (st : State) (p ps : Z) :
  1 <= p -> 1 <= ps ->
  let its := items (fst (Repo.list p ps st)) in
  let all := dict_values (_data st) in
  its = take (Z.to_nat ps) (drop (Z.to_nat ((p - 1) * ps)) all) /\
  Z.of_nat (length its) <= ps /\
  (Z.of_nat (length all) <= (p - 1) * ps -> its = []).
Proof.
  intros Hp Hps its all.
  assert (Hits : its = take (Z.to_nat ps) (drop (Z.to_nat ((p - 1) * ps)) all)).
  { subst its all. by apply list_items_take_drop. }
  split; [exact Hits|]. split.
  - rewrite Hits, length_take. lia.
  - intros Hend. rewrite Hits, drop_ge; [apply take_nil | lia].
Qed.

Lemma list_items_slice_witness :
  items (fst (Repo.list 2 1 three_notes)) = [note_B].
Proof.
  destruct (list_items_slice three_notes 2 1) as [H _]; [lia | lia |].
  rewrite H. vm_compute. reflexivity.
Defined.

(** C3: for [page_size > 0], the items of the pages 1 to [total_pages],
    one after the other, are the whole collection in insertion order:
    each note once, none left out. *)
Theorem list_pages_concat (st : State) (ps : Z) :
  0 < ps ->
  let pages := total_pages (meta (fst (Repo.list 1 ps st))) in
  concat (map (fun p : Z => items (fst (Repo.list p ps st))) (seqZ 1 pages))
  = dict_values (_data st).
Proof.
  intros Hps pages. set (all := dict_values (_data st)).
  assert (Hpages : is_ceil_div (Z.of_nat (length all)) ps pages).
  { by apply list_total_pages. }
  destruct Hpages as [Hcover Hleast].
  assert (0 <= pages) by nia.
  unfold seqZ. rewrite <- list_fmap_compose.
  change (fmap ?f ?l) with (map f l).
  rewrite (map_ext _
    (fun i : nat => take (Z.to_nat ps) (drop (i * Z.to_nat ps) all))).
  - apply chunks_concat; [lia|]. nia.
  - intros i. unfold compose.
    rewrite list_items_take_drop by lia. do 2 f_equal. nia.
Qed.

Lemma list_pages_concat_witness :
  concat (map (fun p : Z => items (fst (Repo.list p 2 three_notes))) [1; 2])
  = dict_values (_data three_notes).
Proof.
  exact (list_pages_concat three_notes 2 ltac:(lia)).
Defined.

(** C10: [list] leaves the repository as it was (the same notes with the
    same fields in the same order), and a second call with the same
    arguments returns what the first returned. *)
Theorem list_leaves_store (st : State) (p ps : Z) :
  let first := Repo.list p ps st in
  let second := Repo.list p ps (snd first) in
  snd first = st /\
  _data (snd first) = _data st /\
  fst second = fst first /\
  snd second = st.
Proof.
  intros first second. subst first second. cbn [Repo.list snd fst]. done.
Qed.

(** ** The dict operations *)

Section DictFacts.
Implicit Types (k : string) (v : Note) (d : Dict).

Lemma dict_get_set_eq k v d : dict_get k (dict_set k v d) = Some v.
Proof.
  induction d as [|[k' v'] d IH]; simpl.
  - by rewrite String.eqb_refl.
  - destruct (String.eqb_spec k k') as [->|Hne]; simpl.
    + by rewrite String.eqb_refl.
    + destruct (String.eqb_spec k k'); [done | exact IH].
Qed.

Lemma dict_get_set_ne k k' v d :
  k' <> k -> dict_get k' (dict_set k v d) = dict_get k' d.
Proof.
  intros Hne. induction d as [|[k0 v0] d IH]; simpl.
  - destruct (String.eqb_spec k' k); [done | done].
  - destruct (String.eqb_spec k k0) as [->|Hk]; simpl.
    + destruct (String.eqb_spec k' k0); [done | done].
    + destruct (String.eqb_spec k' k0); [done | exact IH].
Qed.

(** Assignment to a present key replaces the value where it is. *)
Lemma dict_set_present k v d old :
  dict_get k d = Some old ->
  exists d1 d2,
    d = d1 ++ (k, old) :: d2 /\
    dict_set k v d = d1 ++ (k, v) :: d2 /\
    k ∉ dict_keys d1.
Proof.
  induction d as [|[k' v'] d IH]; simpl; [done|].
  destruct (String.eqb_spec k k') as [->|Hne].
  - intros [= ->]. exists [], d. repeat split. apply not_elem_of_nil.
  - intros Hget. destruct (IH Hget) as (d1 & d2 & -> & -> & Hnotin).
    exists ((k', v') :: d1), d2. repeat split.
    simpl. rewrite not_elem_of_cons. done.
Qed.

(** Assignment to a new key appends. *)
Lemma dict_set_absent k v d :
  dict_get k d = None -> dict_set k v d = d ++ [(k, v)].
Proof.
  induction d as [|[k' v'] d IH]; simpl; [done|].
  destruct (String.eqb_spec k k'); [done|]. intros H. by rewrite IH.
Qed.

Lemma dict_set_keys_present k v d old :
  dict_get k d = Some old -> dict_keys (dict_set k v d) = dict_keys d.
Proof.
  intros H. destruct (dict_set_present k v d old H) as (d1 & d2 & -> & -> & _).
  unfold dict_keys. by rewrite !map_app.
Qed.

Lemma dict_del_absent k d : dict_get k d = None -> dict_del k d = d.
Proof.
  induction d as [|[k' v'] d IH]; simpl; [done|].
  destruct (String.eqb_spec k k'); [done|]. intros H. by rewrite IH.
Qed.

Lemma dict_get_del_eq k d : dict_get k (dict_del k d) = None.
Proof.
  induction d as [|[k' v'] d IH]; simpl; [done|].
  destruct (String.eqb_spec k k') as [->|Hne]; [done|]. simpl.
  destruct (String.eqb_spec k k'); [done | exact IH].
Qed.

Lemma dict_get_del_ne k k' d :
  k' <> k -> dict_get k' (dict_del k d) = dict_get k' d.
Proof.
  intros Hne. induction d as [|[k0 v0] d IH]; simpl; [done|].
  destruct (String.eqb_spec k k0) as [->|Hk]; simpl.
  - destruct (String.eqb_spec k' k0); [done | exact IH].
  - destruct (String.eqb_spec k' k0); [done | exact IH].
Qed.

Lemma dict_get_elem_of k v d : dict_get k d = Some v -> (k, v) ∈ d.
Proof.
  induction d as [|[k' v'] d IH]; simpl; [done|].
  destruct (String.eqb_spec k k') as [->|Hne].
  - intros [= ->]. apply list_elem_of_here.
  - intros H. apply list_elem_of_further, IH, H.
Qed.

Lemma dict_get_None_keys k d : dict_get k d = None <-> k ∉ dict_keys d.
Proof.
  induction d as [|[k' v'] d IH]; simpl.
  - split; [intros _; apply not_elem_of_nil | done].
  - rewrite not_elem_of_cons.
    destruct (String.eqb_spec k k') as [->|Hne].
    + split; [done | intros [Hk _]; by destruct Hk].
    + rewrite IH. tauto.
Qed.

Lemma elem_of_dict_set k v d k' v' :
  (k', v') ∈ dict_set k v d -> (k', v') = (k, v) \/ (k', v') ∈ d.
Proof.
  induction d as [|[k0 v0] d IH]; simpl.
  - rewrite list_elem_of_singleton. auto.
  - destruct (String.eqb_spec k k0) as [->|Hne]; rewrite !elem_of_cons.
    + intros [H|H]; auto.
    + intros [H|H]; [auto | destruct (IH H); auto].
Qed.

Lemma elem_of_dict_del k d k' v' :
  (k', v') ∈ dict_del k d -> (k', v') ∈ d.
Proof.
  induction d as [|[k0 v0] d IH]; simpl; [done|].
  destruct (String.eqb_spec k k0) as [->|Hne]; rewrite !elem_of_cons.
  - intros H. right. by apply IH.
  - intros [H|H]; [by left | right; by apply IH].
Qed.

Lemma elem_of_dict_keys k v d : (k, v) ∈ d -> k ∈ dict_keys d.
Proof. intros H. apply (list_elem_of_fmap_2 fst) in H. exact H. Qed.

(** The three updates keep a dict well formed. *)
Lemma dict_set_wf k v d : dict_wf d -> dict_wf (dict_set k v d).
Proof.
  unfold dict_wf. intros Hwf.
  destruct (dict_get k d) as [old|] eqn:Hget.
  - by rewrite (dict_set_keys_present k v d old).
  - rewrite dict_set_absent by done. unfold dict_keys. rewrite map_app. simpl.
    apply NoDup_app. split; [exact Hwf|]. split; [|apply NoDup_singleton].
    intros x Hx Hx'. apply list_elem_of_singleton in Hx'. subst x.
    by apply dict_get_None_keys in Hget.
Qed.

Lemma dict_del_wf k d : dict_wf d -> dict_wf (dict_del k d).
Proof.
  unfold dict_wf. induction d as [|[k0 v0] d IH]; simpl; [done|].
  rewrite NoDup_cons. intros [Hnotin Hnd].
  destruct (String.eqb_spec k k0); [by apply IH|]. simpl.
  apply NoDup_cons. split; [|by apply IH].
  intros Hin. apply Hnotin. apply list_elem_of_fmap in Hin as ([k1 v1] & -> & Hin).
  apply elem_of_dict_del, elem_of_dict_keys in Hin. exact Hin.
Qed.

End DictFacts.

(** ** Single calls: [get], [create], [update], [delete] *)

Lemma update_found (env : Env) (st : State) (nid : string)
    (t c : option string) (old : Note) :
  dict_get nid (_data st) = Some old ->
  Repo.update env nid t c st =
    (Some (updated_note (now_iso (utcnow env (clock_reads st))) t c old),
     {| _data := dict_set nid
                   (updated_note (now_iso (utcnow env (clock_reads st))) t c old)
                   (_data st);
        clock_reads := S (clock_reads st);
        uuids_drawn := uuids_drawn st |}).
Proof.
  intros Hget. unfold Repo.update. rewrite Hget.
  destruct t, c; reflexivity.
Qed.

Lemma update_missing (env : Env) (st : State) (nid : string) (t c : option string) :
  dict_get nid (_data st) = None -> Repo.update env nid t c st = (None, st).
Proof. intros Hget. unfold Repo.update. by rewrite Hget. Qed.

(** C4: [update] of a note that is in the store.  The fields given are
    overwritten and the others kept ([title] alone given: [content] is
    kept); [updated_at] becomes the current reading of the clock, whether
    or not a field changed; [id] and [created_at] are kept; the note
    returned is the one now stored under the identifier, at the place the
    old one had, and every other note is as before. *)
Theorem update_overwrites_supplied (env : Env) (st : State) (nid : string)
    (t c : option string) (old : Note) :
  dict_get nid (_data st) = Some old ->
  exists new : Note,
    fst (Repo.update env nid t c st) = Some new /\
    (forall x, t = Some x -> title new = x) /\
    (t = None -> title new = title old) /\
    (forall x, c = Some x -> content new = x) /\
    (c = None -> content new = content old) /\
    updated_at new = now_iso (utcnow env (clock_reads st)) /\
    id new = id old /\
    created_at new = created_at old /\
    let st' := snd (Repo.update env nid t c st) in
    dict_get nid (_data st') = Some new /\
    (forall k, k <> nid -> dict_get k (_data st') = dict_get k (_data st)) /\
    dict_keys (_data st') = dict_keys (_data st).
Proof.
  intros Hget. rewrite (update_found env st nid t c old Hget).
  eexists. split; [reflexivity|]. cbn [fst snd _data].
  repeat split.
  - by intros x ->.
  - by intros ->.
  - by intros x ->.
  - by intros ->.
  - apply dict_get_set_eq.
  - intros k Hk. by apply dict_get_set_ne.
  - by apply dict_set_keys_present with old.
Qed.

Lemma update_overwrites_supplied_witness :
  exists new : Note,
    fst (Repo.update sample_env (sample_uuid 1) (Some "X") None three_notes) = Some new /\
    title new = "X" /\ content new = "b" /\
    updated_at new = "2024-05-17T09:30:00.000750Z" /\
    id new = sample_uuid 1 /\
    created_at new = "2024-05-17T09:30:00.000250Z".
Proof.
  destruct (update_overwrites_supplied sample_env three_notes (sample_uuid 1)
              (Some "X") None note_B)
    as (new & Hret & Ht & _ & _ & Hc & Hupd & Hid & Hcr & _); [reflexivity|].
  exists new. split; [exact Hret|].
  split; [by apply Ht|]. split; [by rewrite Hc|].
  split; [rewrite Hupd; reflexivity|]. split; [by rewrite Hid | by rewrite Hcr].
Defined.

(** C9: [update] with neither field given, on a note that is in the store,
    is carried out: it returns the note with title and content as they
    were and [updated_at] set to the current reading, and stores it.  The
    [PATCH] handler is what refuses a payload with no field: it answers
    400 and does not call the store. *)
Theorem update_without_fields (env : Env) (st : State) (nid : string) (old : Note) :
  dict_get nid (_data st) = Some old ->
  exists new : Note,
    Repo.update env nid None None st
    = (Some new,
       {| _data := dict_set nid new (_data st);
          clock_reads := S (clock_reads st);
          uuids_drawn := uuids_drawn st |}) /\
    title new = title old /\
    content new = content old /\
    id new = id old /\
    created_at new = created_at old /\
    updated_at new = now_iso (utcnow env (clock_reads st)) /\
    NoteItem.patch env (mk_Payload None None) nid st = ((None, BAD_REQUEST), st).
Proof.
  intros Hget. rewrite (update_found env st nid None None old Hget).
  eexists. split; [reflexivity|]. by repeat split.
Qed.

Lemma update_without_fields_witness :
  exists new : Note,
    fst (Repo.update sample_env (sample_uuid 1) None None three_notes) = Some new /\
    title new = "B" /\ content new = "b" /\
    updated_at new = "2024-05-17T09:30:00.000750Z".
Proof.
  destruct (update_without_fields sample_env three_notes (sample_uuid 1) note_B)
    as (new & Hret & Ht & Hc & _ & _ & Hupd & _); [reflexivity|].
  exists new. rewrite Hret, Ht, Hc, Hupd. by repeat split.
Defined.

(** C5: for an identifier that is not in the store, [get] returns no
    note, [update] returns no note and [delete] returns false, and each
    leaves the repository exactly as it was (the collection and its size
    with it).  All three are ordinary return values. *)
Theorem not_found_consistency (env : Env) (st : State) (nid : string)
    (t c : option string) :
  dict_get nid (_data st) = None ->
  Repo.get nid st = (None, st) /\
  Repo.update env nid t c st = (None, st) /\
  Repo.delete nid st = (false, st) /\
  _data (snd (Repo.update env nid t c st)) = _data st /\
  length (_data (snd (Repo.delete nid st))) = length (_data st).
Proof.
  intros Hget.
  assert (Hdel : Repo.delete nid st = (false, st)).
  { unfold Repo.delete, dict_mem. by rewrite Hget. }
  rewrite (update_missing env st nid t c Hget), Hdel.
  unfold Repo.get. rewrite Hget. by repeat split.
Qed.

Lemma not_found_consistency_witness :
  Repo.get "no-such-id" three_notes = (None, three_notes) /\
  Repo.update sample_env "no-such-id" (Some "X") None three_notes = (None, three_notes) /\
  Repo.delete "no-such-id" three_notes = (false, three_notes).
Proof.
  destruct (not_found_consistency sample_env three_notes "no-such-id" (Some "X") None)
    as (Hg & Hu & Hd & _); [reflexivity|].
  by repeat split.
Defined.

(** An identifier is not in the store once it has been deleted. *)
Lemma delete_then_absent (st : State) (nid : string) :
  dict_get nid (_data (snd (Repo.delete nid st))) = None.
Proof.
  unfold Repo.delete, dict_mem.
  destruct (dict_get nid (_data st)) eqn:Hget; cbn [snd _data].
  - apply dict_get_del_eq.
  - exact Hget.
Qed.

(** [delete] of a note that is in the store removes it and returns true. *)
Lemma delete_present (st : State) (nid : string) (old : Note) :
  dict_get nid (_data st) = Some old ->
  fst (Repo.delete nid st) = true /\
  forall k, k <> nid ->
    dict_get k (_data (snd (Repo.delete nid st))) = dict_get k (_data st).
Proof.
  intros Hget. unfold Repo.delete, dict_mem. rewrite Hget. cbn [fst snd _data].
  split; [done|]. intros k Hk. by apply dict_get_del_ne.
Qed.

(** C8: [create] returns, for any title and content, the note made of the
    next identifier of the generator, the title and content as given, and
    the current clock reading in its textual form ([isoformat], then [Z])
    as both [created_at] and [updated_at]; the note is stored under its
    identifier, so that [get] finds it; the other notes are untouched, and
    an identifier that was not in the store puts the note last. *)
Theorem create_stores_note (env : Env) (st : State) (t c : string) :
  let note := fst (Repo.create env t c st) in
  let st' := snd (Repo.create env t c st) in
  note = {| id := uuid4 env (uuids_drawn st);
            title := t;
            content := c;
            created_at := isoformat (utcnow env (clock_reads st)) +:+ "Z";
            updated_at := isoformat (utcnow env (clock_reads st)) +:+ "Z" |} /\
  created_at note = updated_at note /\
  Repo.get (id note) st' = (Some note, st') /\
  (forall k, k <> id note -> dict_get k (_data st') = dict_get k (_data st)) /\
  (dict_get (id note) (_data st) = None -> _data st' = _data st ++ [(id note, note)]) /\
  uuids_drawn st' = S (uuids_drawn st).
Proof.
  intros note st'. subst note st'. unfold Repo.create, Repo.get.
  cbn [fst snd _data uuids_drawn]. repeat split.
  - f_equal. apply dict_get_set_eq.
  - intros k Hk. by apply dict_get_set_ne.
  - intros Habs. by apply dict_set_absent.
Qed.

(** ** Sequences of calls: the invariant of the store *)

Lemma run_cons (env : Env) (c : Call) (cs : list Call) (st : State) :
  run env (c :: cs) st
  = (fst (call env c st) :: fst (run env cs (snd (call env c st))),
     snd (run env cs (snd (call env c st)))).
Proof.
  simpl. destruct (call env c st) as [r st1]. simpl.
  by destruct (run env cs st1).
Qed.

Lemma run_app (env : Env) (cs1 cs2 : list Call) (st : State) :
  run env (cs1 ++ cs2) st
  = (fst (run env cs1 st) ++ fst (run env cs2 (snd (run env cs1 st))),
     snd (run env cs2 (snd (run env cs1 st)))).
Proof.
  revert st. induction cs1 as [|c cs1 IH]; intros st.
  - simpl. by destruct (run env cs2 st).
  - rewrite <- app_comm_cons, !run_cons, IH. reflexivity.
Qed.

Lemma note_inv_mono (env : Env) (st st' : State) (k : string) (n : Note) :
  (uuids_drawn st <= uuids_drawn st')%nat ->
  (clock_reads st <= clock_reads st')%nat ->
  note_inv env st k n -> note_inv env st' k n.
Proof.
  intros Hu Hc [Hid (u & Hlt & Hk) (i & j & Hij & Hj & Hcr & Hup)].
  split; [done | exists u; split; [lia | done] |].
  exists i, j. repeat split; [done | lia | done | done].
Qed.

Lemma init_inv (env : Env) : state_inv env init.
Proof.
  split; [apply NoDup_nil_2|]. intros k n Hin. by apply elem_of_nil in Hin.
Qed.

Lemma create_inv (env : Env) (t c : string) (st : State) :
  state_inv env st -> state_inv env (snd (Repo.create env t c st)).
Proof.
  intros [Hwf Hnotes]. unfold Repo.create. cbn [snd].
  split; cbn [_data].
  - by apply dict_set_wf.
  - intros k n Hin. apply elem_of_dict_set in Hin as [[= -> ->]|Hin].
    + split; cbn [uuids_drawn clock_reads Note_new id created_at updated_at].
      * done.
      * exists (uuids_drawn st). split; [lia | done].
      * exists (clock_reads st), (clock_reads st). repeat split; lia.
    + apply note_inv_mono with st; cbn [uuids_drawn clock_reads]; [lia | lia |].
      by apply Hnotes.
Qed.

Lemma update_inv (env : Env) (nid : string) (t c : option string) (st : State) :
  state_inv env st -> state_inv env (snd (Repo.update env nid t c st)).
Proof.
  intros [Hwf Hnotes].
  destruct (dict_get nid (_data st)) as [old|] eqn:Hget.
  - rewrite (update_found env st nid t c old Hget). cbn [snd].
    pose proof (Hnotes nid old (dict_get_elem_of _ _ _ Hget))
      as [Hid Hissued (i & j & Hij & Hj & Hcr & Hup)].
    split; cbn [_data].
    + by apply dict_set_wf.
    + intros k n Hin. apply elem_of_dict_set in Hin as [[= -> ->]|Hin].
      * split; cbn [uuids_drawn clock_reads updated_note id created_at updated_at].
        -- done.
        -- done.
        -- exists i, (clock_reads st). repeat split; [lia | lia | done].
      * apply note_inv_mono with st; cbn [uuids_drawn clock_reads]; [lia | lia |].
        by apply Hnotes.
  - rewrite (update_missing env st nid t c Hget). by split.
Qed.

Lemma delete_inv (env : Env) (nid : string) (st : State) :
  state_inv env st -> state_inv env (snd (Repo.delete nid st)).
Proof.
  intros [Hwf Hnotes]. unfold Repo.delete.
  destruct (dict_mem nid (_data st)); cbn [snd]; [|by split].
  split; cbn [_data].
  - by apply dict_del_wf.
  - intros k n Hin. apply elem_of_dict_del in Hin.
    apply note_inv_mono with st; cbn [uuids_drawn clock_reads]; [lia | lia |].
    by apply Hnotes.
Qed.

Lemma call_inv (env : Env) (c : Call) (st : State) :
  state_inv env st -> state_inv env (snd (call env c st)).
Proof.
  intros Hinv. destruct c as [p ps|nid|t c|nid t c|nid]; cbn [call tagged snd].
  - exact Hinv.
  - exact Hinv.
  - by apply create_inv.
  - by apply update_inv.
  - by apply delete_inv.
Qed.

Lemma run_inv (env : Env) (cs : list Call) : forall st : State,
  state_inv env st -> state_inv env (snd (run env cs st)).
Proof.
  induction cs as [|c cs IH]; intros st Hinv; [exact Hinv|].
  rewrite run_cons. cbn [snd]. by apply IH, call_inv.
Qed.

(** The identifiers returned by the [create] calls of a run are the values
    the generator produced during the run, in order. *)
Lemma run_created_ids (env : Env) (cs : list Call) : forall st : State,
  exists m : nat,
    uuids_drawn (snd (run env cs st)) = (uuids_drawn st + m)%nat /\
    created_ids (fst (run env cs st)) = map (uuid4 env) (seq (uuids_drawn st) m).
Proof.
  induction cs as [|c cs IH]; intros st.
  - exists 0%nat. split; [simpl; lia | done].
  - rewrite run_cons. cbn [fst snd].
    destruct (IH (snd (call env c st))) as (m & Hdrawn & Hids).
    destruct c as [p ps|nid|t c|nid t c|nid]; cbn [call tagged fst snd created_ids] in *.
    + exists m. by split.
    + exists m. by split.
    + exists (S m). cbn [Repo.create fst snd uuids_drawn Note_new id] in *.
      split; [lia|]. rewrite Hids. reflexivity.
    + exists m. destruct (dict_get nid (_data st)) as [old|] eqn:Hget.
      * rewrite (update_found env st nid t c old Hget) in *.
        cbn [snd uuids_drawn] in *. by split.
      * rewrite (update_missing env st nid t c Hget) in *. by split.
    + exists m. unfold Repo.delete in *.
      destruct (dict_mem nid (_data st)); cbn [snd uuids_drawn] in *; by split.
Qed.

(** ** The sample environment *)

Lemma sample_clock_monotone : monotone_clock sample_env.
Proof.
  intros i j Hij. unfold dt_le, dt_leb, dt_fields.
  cbn [utcnow sample_env sample_clock year month day hour minute second
       microsecond lex_leb].
  rewrite !Z.ltb_irrefl. unfold sample_us.
  destruct (Z.ltb_spec (Z.min 999999 (250 * Z.of_nat i))
                       (Z.min 999999 (250 * Z.of_nat j))); [done|].
  destruct (Z.ltb_spec (Z.min 999999 (250 * Z.of_nat j))
                       (Z.min 999999 (250 * Z.of_nat i))); [lia | done].
Qed.

Lemma sample_uuids_fresh : fresh_uuids sample_env.
Proof.
  intros i j Heq. cbn [uuid4 sample_env] in Heq. unfold sample_uuid in Heq.
  apply (inj (String.app "uuid-")) in Heq. by apply (inj pretty) in Heq.
Qed.

(** ** Timestamps and identifiers over the life of a repository *)

(** C6: with a clock that never goes back, after any sequence of calls on a
    fresh repository every stored note has [created_at <= updated_at], and
    an [update] that finds a note returns it with [updated_at] not before
    its [created_at] and not before the [updated_at] it had. *)
Theorem timestamps_monotone (env : Env) (cs : list Call) :
  monotone_clock env ->
  let st := snd (run env cs init) in
  (forall k n, (k, n) ∈ _data st -> stamp_le (created_at n) (updated_at n)) /\
  (forall nid t c old new,
      dict_get nid (_data st) = Some old ->
      fst (Repo.update env nid t c st) = Some new ->
      created_at new = created_at old /\
      stamp_le (created_at new) (updated_at new) /\
      stamp_le (updated_at old) (updated_at new)).
Proof.
  intros Hclock st.
  assert (Hinv : state_inv env st) by apply run_inv, init_inv.
  split.
  - intros k n Hin.
    destruct (inv_notes env st Hinv k n Hin) as [_ _ (i & j & Hij & _ & -> & ->)].
    exists (utcnow env i), (utcnow env j). repeat split. by apply Hclock.
  - intros nid t c old new Hget Hret.
    rewrite (update_found env st nid t c old Hget) in Hret.
    cbn [fst] in Hret. injection Hret as <-.
    cbn [updated_note created_at updated_at].
    destruct (inv_notes env st Hinv nid old (dict_get_elem_of _ _ _ Hget))
      as [_ _ (i & j & Hij & Hj & -> & ->)].
    split; [done|]. split.
    + exists (utcnow env i), (utcnow env (clock_reads st)).
      repeat split. apply Hclock. lia.
    + exists (utcnow env j), (utcnow env (clock_reads st)).
      repeat split. apply Hclock. lia.
Qed.

Lemma timestamps_monotone_witness :
  stamp_le "2024-05-17T09:30:00.000250Z" "2024-05-17T09:30:00.000750Z".
Proof.
  destruct (timestamps_monotone sample_env three_calls sample_clock_monotone)
    as [_ H].
  destruct (H (sample_uuid 1) (Some "X") None note_B
              (updated_note "2024-05-17T09:30:00.000750Z" (Some "X") None note_B)
              eq_refl eq_refl) as (_ & _ & Hle).
  exact Hle.
Defined.

(** C7: with a generator that never repeats, and whatever calls are made
    on a fresh repository (deletions included), the identifiers returned by
    the [create] calls are pairwise distinct; every stored note carries the
    identifier it is stored under, which one of those calls returned; and
    the identifier of the next [create] is none of those returned so far
    and is not in the store. *)
Theorem ids_never_reused (env : Env) (cs : list Call) :
  fresh_uuids env ->
  let rs := fst (run env cs init) in
  let st := snd (run env cs init) in
  NoDup (created_ids rs) /\
  (forall k n, (k, n) ∈ _data st -> id n = k /\ k ∈ created_ids rs) /\
  (forall t c,
      (id (fst (Repo.create env t c st)) ∉ created_ids rs) /\
      dict_get (id (fst (Repo.create env t c st))) (_data st) = None).
Proof.
  intros Hfresh rs st.
  assert (Hinv : state_inv env st) by apply run_inv, init_inv.
  destruct (run_created_ids env cs init) as (m & Hdrawn & Hids).
  fold st in Hdrawn. fold rs in Hids. cbn [init uuids_drawn] in Hdrawn, Hids.
  assert (Hstored : forall k n, (k, n) ∈ _data st -> k ∈ created_ids rs).
  { intros k n Hin.
    destruct (inv_notes env st Hinv k n Hin) as [_ (u & Hu & ->) _].
    rewrite Hids. apply (list_elem_of_fmap_2 (uuid4 env)), elem_of_seq. lia. }
  assert (Hnext : forall t c, id (fst (Repo.create env t c st)) ∉ created_ids rs).
  { intros t c Hin. cbn [Repo.create fst Note_new id] in Hin.
    rewrite Hids in Hin. apply list_elem_of_fmap in Hin as (u & Heq & Hu).
    apply Hfresh in Heq. apply elem_of_seq in Hu. lia. }
  split; [|split].
  - rewrite Hids. apply (NoDup_fmap_2 (uuid4 env) (Inj0:=Hfresh)), NoDup_seq.
  - intros k n Hin. split; [|by apply Hstored with n].
    by destruct (inv_notes env st Hinv k n Hin).
  - intros t c. split; [apply Hnext|].
    apply dict_get_None_keys. intros Hin.
    apply list_elem_of_fmap in Hin as ([k n] & Hk & Hin).
    apply (Hnext t c).
    replace (id (fst (Repo.create env t c st))) with k by (symmetry; exact Hk).
    by apply Hstored with n.
Qed.

Lemma ids_never_reused_witness :
  NoDup (created_ids (fst (run sample_env
    (three_calls ++ [CallDelete (sample_uuid 1); CallCreate "D" "d"]) init))).
Proof.
  apply (ids_never_reused sample_env
           (three_calls ++ [CallDelete (sample_uuid 1); CallCreate "D" "d"])
           sample_uuids_fresh).
Defined.

(** * Further properties of the repository *)

(** ** [list] outside the range of the contract *)

(** A slice whose upper bound is not above its lower bound is empty. *)
Lemma py_slice_empty {A : Type} (l : list A) (start stop : Z) :
  slice_index (Z.of_nat (length l)) stop <= slice_index (Z.of_nat (length l)) start ->
  py_slice l start stop = [].
Proof.
  intros H. unfold py_slice.
  replace (Z.to_nat _) with 0%nat by lia. apply take_0.
Qed.

(** X1: page 0, and any page of size 0, has no items, whatever the other
    argument and the store. *)
Theorem list_page_zero_empty (st : State) (p ps : Z) :
  p = 0 \/ ps = 0 ->
  items (fst (Repo.list p ps st)) = [].
Proof.
  intros H. cbn [Repo.list fst items]. apply py_slice_empty.
  unfold slice_index. destruct H as [-> | ->].
  - replace ((0 - 1) * ps + ps) with 0 by lia. cbn [Z.ltb Z.compare].
    destruct (Z.ltb_spec ((0 - 1) * ps) 0); lia.
  - replace ((p - 1) * 0 + 0) with ((p - 1) * 0) by lia. lia.
Qed.

Lemma list_page_zero_empty_witness :
  items (fst (Repo.list 0 20 three_notes)) = [] /\
  items (fst (Repo.list 2 0 three_notes)) = [].
Proof.
  split; apply list_page_zero_empty; [by left | by right].
Defined.

(** X2: a negative page is counted from the end.  For [page <= -1] and
    [page_size >= 1] the items are, in insertion order, the chunk of
    [page_size] notes that follows the last [-page * page_size] notes when
    the collection is read backwards; so they are not empty as soon as the
    store holds more than [-page * page_size] notes. *)
Theorem list_negative_page (st : State) (p ps : Z) :
  p <= -1 -> 1 <= ps ->
  let its := items (fst (Repo.list p ps st)) in
  let all := dict_values (_data st) in
  its = reverse (take (Z.to_nat ps) (drop (Z.to_nat (- p * ps)) (reverse all))) /\
  (its <> [] <-> - p * ps < Z.of_nat (length all)).
Proof.
  intros Hp Hps its all.
  assert (Hits : its = reverse (take (Z.to_nat ps)
                                  (drop (Z.to_nat (- p * ps)) (reverse all)))).
  { subst its. cbn [Repo.list fst items]. fold all. unfold py_slice, slice_index.
    set (n := length all).
    destruct (Z.ltb_spec ((p - 1) * ps) 0); [|nia].
    destruct (Z.ltb_spec ((p - 1) * ps + ps) 0); [|nia].
    rewrite drop_reverse, take_reverse, reverse_involutive, length_take.
    fold n. rewrite take_drop_commute. f_equal; [lia|]. f_equal. lia. }
  split; [exact Hits|].
  rewrite Hits. split.
  - intros Hne. destruct (Z.le_gt_cases (Z.of_nat (length all)) (- p * ps)); [|lia].
    destruct Hne. rewrite drop_ge; [by rewrite take_nil|].
    rewrite length_reverse. lia.
  - intros Hlt Heq. apply (f_equal length) in Heq.
    rewrite length_reverse, length_take, length_drop, length_reverse in Heq.
    simpl in Heq. lia.
Qed.

Lemma list_negative_page_witness :
  items (fst (Repo.list (-1) 1 three_notes)) = [note_B].
Proof.
  destruct (list_negative_page three_notes (-1) 1) as [H _]; [lia | lia |].
  rewrite H. vm_compute. reflexivity.
Defined.

(** X3: a negative page size (which only a direct call can pass) makes
    page 1 the collection without its last [-page_size] notes, and every
    other page empty. *)
Theorem list_negative_page_size (st : State) (p ps : Z) :
  ps <= -1 ->
  let its := items (fst (Repo.list p ps st)) in
  let all := dict_values (_data st) in
  (p = 1 -> its = take (Z.to_nat (Z.of_nat (length all) + ps)) all) /\
  (p <> 1 -> its = []).
Proof.
  intros Hps its all. subst its. cbn [Repo.list fst items]. fold all. split.
  - intros ->. unfold py_slice, slice_index. cbn [Z.sub Z.mul Z.add Z.ltb Z.compare].
    replace (1 - 1) with 0 by lia. rewrite Z.mul_0_l, Z.add_0_l.
    cbn [Z.ltb Z.compare].
    destruct (Z.ltb_spec ps 0); [|lia].
    rewrite Z.min_l by lia. rewrite Z.sub_0_r. cbn [Z.to_nat]. rewrite drop_0.
    f_equal. lia.
  - intros Hp. apply py_slice_empty. unfold slice_index.
    destruct (Z.ltb_spec ((p - 1) * ps) 0), (Z.ltb_spec ((p - 1) * ps + ps) 0); nia.
Qed.

Lemma list_negative_page_size_witness :
  items (fst (Repo.list 1 (-1) three_notes))
  = take 2 (dict_values (_data three_notes)).
Proof.
  destruct (list_negative_page_size three_notes 1 (-1)) as [H _]; [lia|].
  exact (H eq_refl).
Defined.

(** ** Pages and their metadata, within the contract *)

Lemma list_next_page_iff (st : State) (p ps : Z) :
  next_page (meta (fst (Repo.list p ps st))) <> None
  <-> p < total_pages (meta (fst (Repo.list p ps st))).
Proof.
  cbn [Repo.list fst meta next_page total_pages].
  match goal with |- context [p <? ?b] => destruct (Z.ltb_spec p b) end.
  - split; [done | intros _ [=]].
  - split; [by intros [] | lia].
Qed.

(** X4: for [page >= 1] and [page_size >= 1], a page has items exactly
    when it is not after [total_pages]; every page before the last is
    full, the last holds what is left (at least one note); and
    [next_page] is given exactly when the page after has items. *)
Theorem list_page_occupancy (st : State) (p ps : Z) :
  1 <= p -> 1 <= ps ->
  let r := fst (Repo.list p ps st) in
  let n := Z.of_nat (length (dict_values (_data st))) in
  let len := Z.of_nat (length (items r)) in
  (items r <> [] <-> p <= total_pages (meta r)) /\
  (p < total_pages (meta r) -> len = ps) /\
  (p = total_pages (meta r) -> len = n - (p - 1) * ps /\ 1 <= len <= ps) /\
  (next_page (meta r) <> None <-> items (fst (Repo.list (p + 1) ps st)) <> []).
Proof.
  intros Hp Hps r n len.
  pose proof (list_total_pages st p ps ltac:(lia)) as [Hcover Hleast].
  fold r n in Hcover, Hleast.
  assert (Hoff : 0 <= (p - 1) * ps /\ 0 <= p * ps) by nia.
  assert (Hlen : len = Z.min ps (Z.max 0 (n - (p - 1) * ps))).
  { subst len r n. rewrite list_items_take_drop by lia.
    rewrite length_take, length_drop. lia. }
  assert (Hnext : Z.of_nat (length (items (fst (Repo.list (p + 1) ps st))))
                  = Z.min ps (Z.max 0 (n - p * ps))).
  { subst n. rewrite list_items_take_drop by lia. rewrite length_take, length_drop.
    replace (p + 1 - 1) with p by lia. lia. }
  assert (Hnil : forall l : list Note, l <> [] <-> 0 < Z.of_nat (length l)).
  { intros [|x l]; simpl; split; (done || lia). }
  assert (Hin : p <= total_pages (meta r) <-> (p - 1) * ps < n).
  { split.
    - intros Hle. destruct (Z.le_gt_cases n ((p - 1) * ps)) as [Hge|]; [|lia].
      apply Hleast in Hge. lia.
    - intros Hlt. nia. }
  repeat split.
  - intros Hne. apply Hnil in Hne. fold len in Hne. apply Hin. lia.
  - intros Hle. apply Hnil. fold len. apply Hin in Hle. lia.
  - intros Hlt. assert (p * ps < n); [|lia].
    destruct (Z.le_gt_cases n (p * ps)) as [Hge|]; [|lia].
    apply Hleast in Hge. lia.
  - assert ((p - 1) * ps < n) by (apply Hin; lia).
    assert (n <= (p - 1) * ps + ps) by nia. lia.
  - assert ((p - 1) * ps < n) by (apply Hin; lia). lia.
  - lia.
  - intros Hsome. apply Hnil. rewrite Hnext.
    apply list_next_page_iff in Hsome. fold r in Hsome.
    assert (p * ps < n); [|lia].
    destruct (Z.le_gt_cases n (p * ps)) as [Hge|]; [|lia].
    apply Hleast in Hge. lia.
  - intros Hne. apply Hnil in Hne. rewrite Hnext in Hne.
    apply list_next_page_iff. fold r. nia.
Qed.

Lemma list_page_occupancy_witness :
  Z.of_nat (length (items (fst (Repo.list 1 2 three_notes)))) = 2 /\
  Z.of_nat (length (items (fst (Repo.list 2 2 three_notes)))) = 1.
Proof.
  destruct (list_page_occupancy three_notes 1 2) as (_ & H1 & _); [lia | lia |].
  destruct (list_page_occupancy three_notes 2 2) as (_ & _ & H2 & _); [lia | lia |].
  split; [apply H1; vm_compute; reflexivity|].
  destruct (H2 eq_refl) as [-> _]. reflexivity.
Defined.

(** X5: for [page_size >= 1] the metadata agree with each other:
    [last_page] is [total_pages], there are no more pages than notes, no
    page exactly when there is no note, and [first_page <= last_page]. *)
Theorem list_meta_consistent (st : State) (p ps : Z) :
  1 <= ps ->
  let m := meta (fst (Repo.list p ps st)) in
  last_page m = total_pages m /\
  0 <= total_pages m <= total m /\
  (total_pages m = 0 <-> total m = 0) /\
  first_page m <= last_page m.
Proof.
  intros Hps m.
  pose proof (list_total_pages st p ps ltac:(lia)) as [Hcover Hleast].
  fold m in Hcover, Hleast.
  assert (Htotal : total m = Z.of_nat (length (dict_values (_data st)))) by done.
  rewrite <- Htotal in Hcover, Hleast.
  assert (H0 : 0 <= total m) by lia.
  assert (Hle : total_pages m <= total m) by (apply Hleast; nia).
  assert (Hge : 0 <= total_pages m) by nia.
  assert (Hz : total_pages m = 0 <-> total m = 0) by (split; nia).
  assert (Hlast : last_page m = if 0 <? total m then total_pages m else 0) by done.
  assert (Hfirst : first_page m = if 0 <? total m then 1 else 0) by done.
  rewrite Hlast, Hfirst.
  destruct (Z.ltb_spec 0 (total m)); repeat split; try lia; tauto.
Qed.

Lemma list_meta_consistent_witness :
  last_page (meta (fst (Repo.list 7 2 three_notes))) = 2.
Proof.
  destruct (list_meta_consistent three_notes 7 2) as [H _]; [lia|].
  rewrite H. reflexivity.
Defined.

(** ** Removal, re-creation and collisions *)

Lemma dict_del_app (k : string) (d1 d2 : Dict) :
  dict_del k (d1 ++ d2) = dict_del k d1 ++ dict_del k d2.
Proof.
  induction d1 as [|[k' v'] d1 IH]; simpl; [done|].
  destruct (String.eqb_spec k k'); [exact IH | by rewrite IH].
Qed.

(** In a well-formed dict the entry of a present key is the only one with
    that key, and deletion takes out exactly that entry. *)
Lemma dict_del_present (k : string) (d : Dict) (old : Note) :
  dict_wf d -> dict_get k d = Some old ->
  exists d1 d2, d = d1 ++ (k, old) :: d2 /\ dict_del k d = d1 ++ d2.
Proof.
  intros Hwf Hget.
  destruct (dict_set_present k old d old Hget) as (d1 & d2 & Hd & _ & Hd1).
  exists d1, d2. split; [exact Hd|]. subst d.
  unfold dict_wf, dict_keys in Hwf. rewrite map_app in Hwf. simpl in Hwf.
  apply NoDup_app in Hwf as (_ & _ & Hnd). apply NoDup_cons in Hnd as [Hd2 _].
  rewrite dict_del_app. simpl. rewrite String.eqb_refl.
  rewrite !dict_del_absent; [done | |]; by apply dict_get_None_keys.
Qed.

Lemma dict_get_of_elem_wf (k : string) (v : Note) (d : Dict) :
  dict_wf d -> (k, v) ∈ d -> dict_get k d = Some v.
Proof.
  unfold dict_wf. induction d as [|[k' v'] d IH]; simpl.
  - intros _ Hin. by apply elem_of_nil in Hin.
  - rewrite NoDup_cons. intros [Hnotin Hnd] Hin.
    apply elem_of_cons in Hin as [[= -> ->]|Hin].
    + by rewrite String.eqb_refl.
    + destruct (String.eqb_spec k k') as [->|_]; [|by apply IH].
      destruct Hnotin. by apply elem_of_dict_keys with v.
Qed.

(** X6: [delete] of an identifier that is in a well-formed store returns
    true and takes out that note and no other: [get] no longer finds it,
    every other identifier is found as before, the remaining notes keep
    their order, and the store holds one note less. *)
Theorem delete_removes_one (st : State) (nid : string) (old : Note) :
  dict_wf (_data st) ->
  dict_get nid (_data st) = Some old ->
  let st' := snd (Repo.delete nid st) in
  fst (Repo.delete nid st) = true /\
  fst (Repo.get nid st') = None /\
  (forall k, k <> nid -> fst (Repo.get k st') = fst (Repo.get k st)) /\
  (exists d1 d2, _data st = d1 ++ (nid, old) :: d2 /\ _data st' = d1 ++ d2) /\
  S (length (_data st')) = length (_data st).
Proof.
  intros Hwf Hget st'. subst st'. unfold Repo.delete, Repo.get, dict_mem.
  rewrite Hget. cbn [fst snd _data].
  destruct (dict_del_present nid (_data st) old Hwf Hget) as (d1 & d2 & Hd & Hdel).
  repeat split.
  - apply dict_get_del_eq.
  - intros k Hk. by apply dict_get_del_ne.
  - by exists d1, d2.
  - rewrite Hdel, Hd, !length_app. simpl. lia.
Qed.

Lemma delete_removes_one_witness :
  dict_values (_data (snd (Repo.delete (sample_uuid 1) three_notes)))
  = [{| id := sample_uuid 0; title := "A"; content := "a";
        created_at := "2024-05-17T09:30:00Z";
        updated_at := "2024-05-17T09:30:00Z" |};
     {| id := sample_uuid 2; title := "C"; content := "c";
        created_at := "2024-05-17T09:30:00.000500Z";
        updated_at := "2024-05-17T09:30:00.000500Z" |}].
Proof.
  destruct (delete_removes_one three_notes (sample_uuid 1) note_B)
    as (_ & _ & _ & (d1 & d2 & Hd & _) & _).
  - apply (inv_wf sample_env), run_inv, init_inv.
  - reflexivity.
  - vm_compute. reflexivity.
Defined.

(** X7: creating a note under an identifier that was not in the store and
    deleting it again gives the collection back as it was, order
    included. *)
Theorem create_then_delete (env : Env) (st : State) (t c : string) :
  dict_get (uuid4 env (uuids_drawn st)) (_data st) = None ->
  let created := Repo.create env t c st in
  let deleted := Repo.delete (id (fst created)) (snd created) in
  fst deleted = true /\ _data (snd deleted) = _data st.
Proof.
  intros Habs created deleted. subst deleted created.
  unfold Repo.delete, dict_mem, Repo.create.
  cbn [fst snd _data Note_new id]. rewrite dict_get_set_eq. cbn [fst snd _data].
  split; [done|].
  rewrite dict_set_absent by done. rewrite dict_del_app. simpl.
  rewrite String.eqb_refl. rewrite dict_del_absent by done. apply app_nil_r.
Qed.

Lemma create_then_delete_witness :
  _data (snd (Repo.delete (sample_uuid 3)
                (snd (Repo.create sample_env "D" "d" three_notes))))
  = _data three_notes.
Proof.
  destruct (create_then_delete sample_env three_notes "D" "d") as [_ H];
    [reflexivity | exact H].
Defined.

(** X8: [create] does not look whether the generated identifier is taken.
    When it is, the new note replaces the note stored under it, at the same
    place: the store has as many notes as before, under the same
    identifiers, and the old note is no longer found. *)
Theorem create_on_taken_id (env : Env) (st : State) (t c : string) (old : Note) :
  dict_get (uuid4 env (uuids_drawn st)) (_data st) = Some old ->
  let note := fst (Repo.create env t c st) in
  let st' := snd (Repo.create env t c st) in
  id note = uuid4 env (uuids_drawn st) /\
  fst (Repo.get (id note) st') = Some note /\
  dict_keys (_data st') = dict_keys (_data st) /\
  length (_data st') = length (_data st) /\
  exists d1 d2, _data st = d1 ++ (id note, old) :: d2 /\
                _data st' = d1 ++ (id note, note) :: d2.
Proof.
  intros Hget note st'. subst st'. unfold Repo.create, Repo.get in *.
  cbn [fst snd _data] in *.
  set (k := uuid4 env (uuids_drawn st)) in *.
  change (id note) with k.
  destruct (dict_set_present k note (_data st) old Hget) as (d1 & d2 & Hd & Hset & _).
  change (dict_set (id _) _ (_data st)) with (dict_set k note (_data st)).
  repeat split.
  - apply dict_get_set_eq.
  - by apply dict_set_keys_present with old.
  - rewrite Hset, Hd, !length_app. reflexivity.
  - by exists d1, d2.
Qed.

Lemma create_on_taken_id_witness :
  let st1 := snd (Repo.create stuck_env "A" "a" init) in
  let st2 := snd (Repo.create stuck_env "B" "b" st1) in
  length (_data st2) = 1%nat /\
  title <$> fst (Repo.get "same" st2) = Some "B".
Proof.
  intros st1 st2.
  destruct (create_on_taken_id stuck_env st1 "B" "b"
              (fst (Repo.create stuck_env "A" "a" init)))
    as (_ & Hget & _ & Hlen & _); [reflexivity|].
  fold st2 in Hget, Hlen. split; [by rewrite Hlen|].
  change "same" with (id (fst (Repo.create stuck_env "B" "b" st1))).
  by rewrite Hget.
Defined.

(** ** What every reachable store satisfies *)

Lemma values_ids_are_keys (d : Dict) :
  (forall k n, (k, n) ∈ d -> id n = k) ->
  map id (dict_values d) = dict_keys d.
Proof.
  induction d as [|[k n] d IH]; intros Hid; simpl; [done|].
  rewrite (Hid k n) by apply list_elem_of_here.
  f_equal. apply IH. intros k' n' Hin. by apply Hid, list_elem_of_further.
Qed.

(** X9: whatever the clock and the generator, after any sequence of calls
    on a fresh repository no two stored notes have the same identifier, and
    [get] on the identifier of a stored note returns that very note. *)
Theorem stored_ids_distinct (env : Env) (cs : list Call) :
  let st := snd (run env cs init) in
  NoDup (map id (dict_values (_data st))) /\
  (forall n, n ∈ dict_values (_data st) -> fst (Repo.get (id n) st) = Some n).
Proof.
  intros st.
  assert (Hinv : state_inv env st) by apply run_inv, init_inv.
  destruct Hinv as [Hwf Hnotes].
  assert (Hid : forall k n, (k, n) ∈ _data st -> id n = k).
  { intros k n Hin. by destruct (Hnotes k n Hin). }
  split.
  - by rewrite values_ids_are_keys.
  - intros n Hin. apply list_elem_of_fmap in Hin as ([k n'] & -> & Hin).
    cbn [snd Repo.get fst]. rewrite (Hid k n' Hin).
    by apply dict_get_of_elem_wf.
Qed.

(** With a generator that never repeats, the identifier of the next
    [create] is not in a store that satisfies the invariant. *)
Lemma next_id_absent (env : Env) (st : State) :
  fresh_uuids env -> state_inv env st ->
  dict_get (uuid4 env (uuids_drawn st)) (_data st) = None.
Proof.
  intros Hfresh [_ Hnotes]. apply dict_get_None_keys. intros Hin.
  apply list_elem_of_fmap in Hin as ([k n] & Hk & Hin). simpl in Hk.
  destruct (Hnotes k n Hin) as [_ (u & Hu & Heq) _].
  rewrite Heq in Hk. apply Hfresh in Hk. lia.
Qed.

Lemma run_count (env : Env) (cs : list Call) : forall st : State,
  fresh_uuids env -> state_inv env st ->
  (length (_data (snd (run env cs st))) + count_deletes (fst (run env cs st))
   = length (_data st) + count_creates (fst (run env cs st)))%nat.
Proof.
  induction cs as [|c cs IH]; intros st Hfresh Hinv; [simpl; lia|].
  rewrite run_cons. cbn [fst snd].
  specialize (IH (snd (call env c st)) Hfresh (call_inv env c st Hinv)).
  destruct c as [p ps|nid|t c|nid t c|nid];
    cbn [call tagged fst snd count_creates count_deletes] in *.
  - exact IH.
  - exact IH.
  - rewrite IH. cbn [Repo.create snd _data Note_new id].
    rewrite dict_set_absent by by apply next_id_absent.
    rewrite length_app. simpl. lia.
  - rewrite IH. f_equal.
    destruct (dict_get nid (_data st)) as [old|] eqn:Hget.
    + rewrite (update_found env st nid t c old Hget). cbn [snd _data].
      destruct (dict_set_present nid
                  (updated_note (now_iso (utcnow env (clock_reads st))) t c old)
                  (_data st) old Hget) as (d1 & d2 & Hd & -> & _).
      rewrite Hd, !length_app. reflexivity.
    + by rewrite (update_missing env st nid t c Hget).
  - destruct (dict_get nid (_data st)) as [old|] eqn:Hget.
    + destruct (dict_del_present nid (_data st) old (inv_wf env st Hinv) Hget)
        as (d1 & d2 & Hd & Hdel).
      assert (Hlen : length (_data st) = S (length (dict_del nid (_data st)))).
      { rewrite Hdel, Hd, !length_app. simpl. lia. }
      unfold Repo.delete, dict_mem in *. rewrite Hget in *.
      cbn [fst snd _data count_deletes] in *. lia.
    + assert (Hdel : Repo.delete nid st = (false, st)).
      { unfold Repo.delete, dict_mem. by rewrite Hget. }
      rewrite Hdel in *. cbn [fst snd count_deletes] in *. exact IH.
Qed.

(** X10: with a generator that never repeats, the [total] that [list]
    reports after any sequence of calls on a fresh repository is the number
    of [create] calls less the number of [delete] calls that returned
    true. *)
Theorem total_is_creates_less_deletes (env : Env) (cs : list Call) (p ps : Z) :
  fresh_uuids env ->
  let rs := fst (run env cs init) in
  let st := snd (run env cs init) in
  total (meta (fst (Repo.list p ps st)))
  = Z.of_nat (count_creates rs) - Z.of_nat (count_deletes rs).
Proof.
  intros Hfresh rs st.
  pose proof (run_count env cs init Hfresh (init_inv env)) as H.
  fold rs st in H. cbn [init _data length] in H.
  cbn [Repo.list fst meta total]. unfold dict_values. rewrite length_map. lia.
Qed.

Lemma total_is_creates_less_deletes_witness :
  total (meta (fst (Repo.list 1 20 (snd (run sample_env
    (three_calls ++ [CallDelete (sample_uuid 1); CallDelete (sample_uuid 1);
                     CallCreate "D" "d"]) init))))) = 3.
Proof.
  rewrite (total_is_creates_less_deletes sample_env _ 1 20 sample_uuids_fresh).
  reflexivity.
Defined.

Lemma same_note_call (env : Env) (k : string) (old : Note) (c : Call) (st : State) :
  fresh_uuids env ->
  same_note env k old st -> same_note env k old (snd (call env c st)).
Proof.
  intros Hfresh [(u & Hu & Hk) Hsame].
  destruct c as [p ps|nid|t c|nid t c|nid]; cbn [call tagged snd].
  - by split; [exists u|].
  - by split; [exists u|].
  - split; [exists u; cbn [Repo.create snd uuids_drawn]; split; [lia | done]|].
    cbn [Repo.create snd _data Note_new id]. intros n.
    rewrite dict_get_set_ne; [apply Hsame|].
    rewrite Hk. intros Heq. apply Hfresh in Heq. lia.
  - destruct (dict_get nid (_data st)) as [found|] eqn:Hget.
    + rewrite (update_found env st nid t c found Hget). cbn [snd].
      split; [by exists u|]. cbn [_data]. intros n.
      destruct (decide (k = nid)) as [->|Hne].
      * rewrite dict_get_set_eq. intros [= <-]. cbn [updated_note id created_at].
        by apply Hsame.
      * rewrite dict_get_set_ne by done. apply Hsame.
    + rewrite (update_missing env st nid t c Hget). by split; [exists u|].
  - unfold Repo.delete. destruct (dict_mem nid (_data st)); cbn [snd].
    + split; [by exists u|]. cbn [_data]. intros n.
      destruct (decide (k = nid)) as [->|Hne].
      * by rewrite dict_get_del_eq.
      * rewrite dict_get_del_ne by done. apply Hsame.
    + by split; [exists u|].
Qed.

Lemma same_note_run (env : Env) (k : string) (old : Note) (cs : list Call) :
  forall st : State,
  fresh_uuids env ->
  same_note env k old st -> same_note env k old (snd (run env cs st)).
Proof.
  induction cs as [|c cs IH]; intros st Hfresh Hsame; [exact Hsame|].
  rewrite run_cons. cbn [snd]. by apply IH, same_note_call.
Qed.

(** X11: with a generator that never repeats, a note found under an
    identifier at some point of the life of a repository and a note found
    under the same identifier after any further calls have the same [id]
    and the same [created_at]: no call changes them, and the identifier of
    a deleted note is not given to another. *)
Theorem created_at_never_changes (env : Env) (cs1 cs2 : list Call)
    (k : string) (old new : Note) :
  fresh_uuids env ->
  fst (Repo.get k (snd (run env cs1 init))) = Some old ->
  fst (Repo.get k (snd (run env (cs1 ++ cs2) init))) = Some new ->
  id new = id old /\ created_at new = created_at old.
Proof.
  intros Hfresh Hold Hnew. rewrite run_app in Hnew. cbn [snd Repo.get fst] in *.
  set (st1 := snd (run env cs1 init)) in *.
  assert (Hinv : state_inv env st1) by apply run_inv, init_inv.
  assert (Hstart : same_note env k old st1).
  { split.
    - by destruct (inv_notes env st1 Hinv k old (dict_get_elem_of _ _ _ Hold)).
    - intros n Hn. rewrite Hold in Hn. by injection Hn as <-. }
  destruct (same_note_run env k old cs2 st1 Hfresh Hstart) as [_ H].
  by apply H.
Qed.

Lemma created_at_never_changes_witness :
  let new := updated_note "2024-05-17T09:30:00.000750Z" (Some "X") None note_B in
  id new = id note_B /\ created_at new = created_at note_B.
Proof.
  intros new.
  exact (created_at_never_changes sample_env three_calls
           [CallUpdate (sample_uuid 1) (Some "X") None; CallCreate "D" "d"]
           (sample_uuid 1) note_B new sample_uuids_fresh eq_refl eq_refl).
Defined.

(** ** The text of a timestamp *)

Lemma string_app_assoc (a b c : string) : (a +:+ b) +:+ c = a +:+ (b +:+ c).
Proof.
  induction a as [|x a IH]; [done|].
  change (String x ((a +:+ b) +:+ c) = String x (a +:+ (b +:+ c))).
  by rewrite IH.
Qed.

Lemma string_compare_app (p x y : string) :
  String.compare (p +:+ x) (p +:+ y) = String.compare x y.
Proof.
  induction p as [|ch p IH]; [done|].
  change (match Ascii.compare ch ch with
          | Eq => String.compare (p +:+ x) (p +:+ y)
          | o => o
          end = String.compare x y).
  assert (Ascii.compare ch ch = Eq) as ->.
  { unfold Ascii.compare. apply N.compare_refl. }
  exact IH.
Qed.

Lemma isoformat_length (t : datetime) :
  String.length (isoformat t)
  = (19 + String.length (iso_fraction (microsecond t)))%nat.
Proof.
  unfold isoformat. rewrite !string_length_app, !zpad_length. simpl. lia.
Qed.

(** X12: the text [now_iso] gives for a clock reading is 20 characters long
    for a whole second and 27 otherwise, and two readings have the same
    text only if they are the same reading. *)
Theorem now_iso_text (a b : datetime) :
  String.length (now_iso a) = (if (microsecond a =? 0)%Z then 20%nat else 27%nat) /\
  (now_iso a = now_iso b <-> a = b).
Proof.
  split.
  - unfold now_iso. rewrite string_length_app, isoformat_length.
    unfold iso_fraction. destruct (microsecond a =? 0); [done|].
    rewrite string_length_app, zpad_length. reflexivity.
  - split; [apply now_iso_inj | by intros ->].
Qed.

(** X13: the texts do not sort as the readings do.  When two readings
    differ only in that the first is on a whole second and the second is
    later in that second, the second is the later reading but its text is
    the smaller of the two in the order of strings. *)
Theorem now_iso_text_order (a b : datetime) :
  dt_fields a = [year b; month b; day b; hour b; minute b; second b; 0] ->
  microsecond b <> 0 ->
  dt_le a b /\ String.compare (now_iso b) (now_iso a) = Lt.
Proof.
  destruct a as [y mo d h mi s us Hok], b as [y' mo' d' h' mi' s' us' Hok'].
  unfold dt_fields. cbn [year month day hour minute second microsecond].
  intros [= -> -> -> -> -> -> ->] Hus.
  pose proof (dt_valid_bounds _ _ _ _ _ _ _ Hok') as (_ & _ & Hb).
  split.
  - unfold dt_le, dt_leb, dt_fields.
    cbn [year month day hour minute second microsecond lex_leb].
    rewrite !Z.ltb_irrefl. destruct (Z.ltb_spec 0 us'); [done | lia].
  - unfold now_iso, isoformat, iso_fraction.
    cbn [year month day hour minute second microsecond].
    destruct (Z.eqb_spec us' 0) as [|_]; [done|]. cbn [Z.eqb].
    rewrite !string_app_assoc, !string_compare_app. reflexivity.
Qed.

Lemma now_iso_text_order_witness :
  String.compare "2024-05-17T09:30:00.000250Z" "2024-05-17T09:30:00Z" = Lt.
Proof.
  destruct (now_iso_text_order (sample_clock 0) (sample_clock 1)) as [_ H];
    [reflexivity | discriminate | exact H].
Defined.

(** * The HTTP layer *)

(** ** One request *)

(** The two models of the [PATCH] view agree: same store afterwards, same
    status, same note. *)
Lemma patch_views_agree (env : Env) (payload : Payload) (nid : string) (st : State) :
  let short := NoteItem.patch env payload nid st in
  let full := Routes.NoteItem.patch env payload nid st in
  snd full = snd short /\
  snd (fst full) = HTTPStatus_value (snd (fst short)) /\
  match fst (fst short) with
  | Some n => exists msg, fst (fst full)
      = Json {| status := "success"; data := DataNote (NoteSchema.dump n);
                message := Some msg |}
  | None => exists msg, fst (fst full) = error_envelope msg
  end.
Proof.
  unfold NoteItem.patch, Routes.NoteItem.patch.
  destruct (payload_is_empty payload); cbn [fst snd]; [by eauto|].
  destruct (Repo.update env nid _ _ st) as [[n|] st']; cbn [fst snd]; by eauto.
Qed.

Ltac shape_success :=
  right; left; eexists; split; [reflexivity|]; split; [reflexivity|];
  split; [discriminate | auto].

Ltac shape_error :=
  right; right; eexists; split; [reflexivity | done].

(** X14: every answer has one of three shapes: the empty body with 204; an
    envelope with status ["success"], a [data] that is not null and code
    200 or 201; or an envelope with status ["error"], a null [data], a
    message and a code from 400 up.  The three error handlers of the
    application build the last shape. *)
Theorem answers_are_uniform (env : Env) (req : Request) (st : State) :
  match fst (dispatch env req st) with
  | Rejected => True
  | Responded body code =>
      (body = EmptyBody /\ code = 204) \/ success_shape body code \/
      error_shape body code
  end /\
  error_shape (fst App.handle_404) (snd App.handle_404) /\
  error_shape (fst App.handle_400) (snd App.handle_400) /\
  error_shape (fst App.handle_500) (snd App.handle_500).
Proof.
  split; [|repeat split; eexists; (split; [reflexivity | done])].
  destruct req as [p ps|t c|nid|nid t c|nid]; cbn [dispatch].
  - destruct (PaginationQuerySchema.load p ps); [|done].
    shape_success.
  - destruct (NoteCreateSchema.load t c); [|done].
    shape_success.
  - unfold Routes.NoteItem.get, Repo.get.
    destruct (dict_get nid (_data st)); cbn [respond fst snd].
    + shape_success.
    + shape_error.
  - destruct (NoteUpdateSchema.load t c) as [payload|]; [|done].
    unfold Routes.NoteItem.patch.
    destruct (payload_is_empty payload); cbn [respond fst snd].
    { shape_error. }
    destruct (Repo.update env nid _ _ st) as [[n|] st']; cbn [fst snd].
    + shape_success.
    + shape_error.
  - unfold Routes.NoteItem.delete.
    destruct (Repo.delete nid st) as [[|] st']; cbn [respond fst snd].
    + by left.
    + shape_error.
Qed.

(** X15: a request that is refused by its schema or answered with a code
    from 400 up leaves the repository as it was, and so does every [GET]. *)
Theorem failures_change_nothing (env : Env) (req : Request) (st : State) :
  let out := fst (dispatch env req st) in
  let st' := snd (dispatch env req st) in
  (out = Rejected -> st' = st) /\
  (forall body code, out = Responded body code -> 400 <= code -> st' = st) /\
  (forall p ps, req = ListNotes p ps -> st' = st) /\
  (forall nid, req = GetNote nid -> st' = st).
Proof.
  intros out st'. subst out st'.
  destruct req as [p ps|t c|nid|nid t c|nid]; cbn [dispatch].
  - destruct (PaginationQuerySchema.load p ps); repeat split; by intros.
  - destruct (NoteCreateSchema.load t c); cbn [respond fst snd];
      repeat split; try done.
    intros body code [= _ <-]. unfold HTTP_CREATED. lia.
  - unfold Routes.NoteItem.get, Repo.get.
    destruct (dict_get nid (_data st)); by repeat split.
  - destruct (NoteUpdateSchema.load t c) as [payload|]; [|by repeat split].
    unfold Routes.NoteItem.patch.
    destruct (payload_is_empty payload); [by repeat split|].
    destruct (dict_get nid (_data st)) as [old|] eqn:Hget.
    + rewrite (update_found env st nid _ _ old Hget). cbn [respond fst snd].
      repeat split; try done. intros body code [= _ <-]. unfold HTTP_OK. lia.
    + rewrite (update_missing env st nid _ _ Hget). by repeat split.
  - unfold Routes.NoteItem.delete, Repo.delete.
    destruct (dict_mem nid (_data st)); cbn [respond fst snd];
      repeat split; try done.
    intros body code [= _ <-]. unfold HTTP_NO_CONTENT. lia.
Qed.

Lemma get_after_create (env : Env) (st : State) (t c : string) :
  Repo.get (id (fst (Repo.create env t c st))) (snd (Repo.create env t c st))
  = (Some (fst (Repo.create env t c st)), snd (Repo.create env t c st)).
Proof.
  unfold Repo.get, Repo.create. cbn [fst snd _data]. by rewrite dict_get_set_eq.
Qed.

(** X16: the note that [POST] answers with is the note a [GET] on its
    identifier then answers with: same [data], with code 201 for the first
    and 200 for the second. *)
Theorem post_then_get (env : Env) (payload : CreatePayload) (st : State) :
  let posted := Routes.NotesCollection.post env payload st in
  exists n : Note,
    title n = create_title payload /\
    content n = create_content payload /\
    fst posted
    = (Json {| status := "success"; data := DataNote (NoteSchema.dump n);
               message := Some "Note created" |}, 201) /\
    Routes.NoteItem.get (id n) (snd posted)
    = ((Json {| status := "success"; data := DataNote (NoteSchema.dump n);
                message := None |}, 200), snd posted).
Proof.
  intros posted. subst posted. unfold Routes.NotesCollection.post.
  set (created := Repo.create env _ _ st). exists (fst created).
  repeat split. cbn [snd]. unfold Routes.NoteItem.get.
  subst created. by rewrite get_after_create.
Qed.

(** X17: once [DELETE] has been called on an identifier, whatever it
    answered, a [GET] on that identifier answers 404 and a second [DELETE]
    answers 404 and changes nothing. *)
Theorem delete_then_gone (nid : string) (st : State) :
  let st' := snd (Routes.NoteItem.delete nid st) in
  Routes.NoteItem.get nid st'
  = ((error_envelope "Note not found", 404), st') /\
  Routes.NoteItem.delete nid st'
  = ((error_envelope "Note not found", 404), st').
Proof.
  intros st'.
  assert (Habs : dict_get nid (_data st') = None).
  { subst st'. unfold Routes.NoteItem.delete.
    pose proof (delete_then_absent st nid) as H.
    by destruct (Repo.delete nid st) as [[|] st1]. }
  unfold Routes.NoteItem.get, Routes.NoteItem.delete, Repo.get, Repo.delete, dict_mem.
  by rewrite Habs.
Qed.

(** X18: the status of [PATCH] is decided in this order: 400 when the
    payload has no field, whether or not the note exists; otherwise 404
    when the identifier is not in the store; otherwise 200 with the updated
    note.  The store changes only in the last case. *)
Theorem patch_status (env : Env) (payload : Payload) (nid : string) (st : State) :
  let r := NoteItem.patch env payload nid st in
  (payload_is_empty payload = true ->
     r = ((None, BAD_REQUEST), st)) /\
  (payload_is_empty payload = false -> dict_get nid (_data st) = None ->
     r = ((None, NOT_FOUND), st)) /\
  (payload_is_empty payload = false ->
   forall old, dict_get nid (_data st) = Some old ->
     exists new, fst r = (Some new, OK) /\
                 fst (Repo.get nid (snd r)) = Some new /\
                 title new = default (title old) (payload_title payload) /\
                 content new = default (content old) (payload_content payload)).
Proof.
  intros r. subst r. unfold NoteItem.patch. split; [|split].
  - by intros ->.
  - intros -> Hget. by rewrite (update_missing env st nid _ _ Hget).
  - intros -> old Hget. rewrite (update_found env st nid _ _ old Hget).
    eexists. split; [reflexivity|]. cbn [snd Repo.get fst _data].
    by rewrite dict_get_set_eq.
Qed.




(** ** Sequences of requests *)








(** X22: whatever the page and the page size, the items of [list] are
    notes of the store, each at most once, in the order of the store: the
    items are a sublist of the collection. *)
Theorem list_items_sublist (st : State) (p ps : Z) :
  items (fst (Repo.list p ps st)) `sublist_of` dict_values (_data st).
Proof.
  cbn [Repo.list fst items]. unfold py_slice.
  etrans; [apply sublist_take | apply sublist_drop].
Qed.
